(** * rare-birds: the viewport-driven fetch pipeline of [BirdMap]

    A shallow embedding of the fetch-coordination code of the two
    [BirdMap] components of the repository:

    - [src/client/src/components/BirdMap.jsx] (module [BirdMap]): the
      component that re-queries on every settled pan, behind a 3 km gate;
    - [src/unnamed/part_000] (module [Part000]): the component with the
      "Update for this area" button, shown after a 10 km move.

    Both share [calculateDistance] and, line for line, the processing of
    the eBird response (lodash [_.groupBy], the photo lookup and the
    construction of [processedSightings]).

    Numbers.  Where the code decides on a distance or rounds a coordinate
    (the gate, the radius, the request), a JavaScript Number is modelled as
    a real number: [Math.sin], [Math.cos], [Math.sqrt], [Math.atan2],
    [Math.min] and [Math.max] are the real functions they approximate, [<]
    and [>=] are the order of the reals.  Rounding error, [NaN] and the
    infinities are outside that model.  [calculateDistance] is embedded a
    second time as it runs, on IEEE 754 doubles (module [Double]), with the
    functions that ECMAScript leaves to the engine as a parameter: that
    embedding shows where the function returns [NaN].

    The embedding of the code comes first, then its properties. *)

From Stdlib Require Import Floats.
From Stdlib Require Import Reals Lra Lia ZArith NArith List String Ascii Bool Permutation.
Import ListNotations.

(** * Part I: the code *)

(** ** JavaScript numerics *)

Module Math.

(** [Math.atan2(y, x)]: the angle of the point [(x, y)], by quadrant, as
    ECMAScript tabulates it (with [atan2(0, 0) = 0]). *)
Definition atan2 (y x : R) : R :=
  if Rlt_dec 0 x then atan (y / x)
  else if Rlt_dec x 0 then
    (if Rle_dec 0 y then atan (y / x) + PI else atan (y / x) - PI)%R
  else if Rlt_dec 0 y then (PI / 2)%R
  else if Rlt_dec y 0 then (- (PI / 2))%R
  else 0%R.

Definition max (x y : R) : R := Rmax x y.

Definition min (x y : R) : R := Rmin x y.

End Math.

(** [Number(x.toFixed(digits))]: [x] rounded to [digits] decimals.
    [toFixed] picks the integer [n] with [n / 10^digits] nearest to [|x|],
    the larger one on a tie, and puts the sign back. *)
Definition toFixed (x : R) (digits : nat) : R :=
  let scale := (10 ^ digits)%R in
  if Rlt_dec x 0
  then (- (IZR (Int_part (- x * scale + / 2)) / scale))%R
  else (IZR (Int_part (x * scale + / 2)) / scale)%R.

(** ** Geodistance: [calculateDistance] (the same text in both components) *)

(** The haversine term [a] of [calculateDistance], on the reals: the
    function that the code approximates.  The code as it runs on doubles is
    [Double.calculateDistance] below; the two part where rounding takes the
    term above 1 and the code returns [NaN]. *)
Definition haversine (lat1 lon1 lat2 lon2 : R) : R :=
  let dLat := ((lat2 - lat1) * PI / 180)%R in
  let dLon := ((lon2 - lon1) * PI / 180)%R in
  (sin (dLat / 2) * sin (dLat / 2) +
   cos (lat1 * PI / 180) * cos (lat2 * PI / 180) *
   sin (dLon / 2) * sin (dLon / 2))%R.

Definition calculateDistance (lat1 lon1 lat2 lon2 : R) : R :=
  let R := 6371%R in
  let a := haversine lat1 lon1 lat2 lon2 in
  let c := (2 * Math.atan2 (sqrt a) (sqrt (1 - a)))%R in
  (R * c)%R.

(** ** [calculateDistance] on doubles *)

Module Double.

(** [Math.sin], [Math.cos] and [Math.atan2]: ECMAScript calls their results
    implementation-approximated, so the engine's library is a parameter.
    [+], [-], [*], [/] and [Math.sqrt] are those of IEEE 754 binary64. *)
Record MathLibrary : Type := mkMath {
  sin : float -> float;
  cos : float -> float;
  atan2 : float -> float -> float
}.

(** What ECMAScript fixes of [Math.atan2] for every engine, as far as it is
    used below: a [NaN] argument gives [NaN]. *)
Definition conforms (M : MathLibrary) : Prop :=
  forall y x, PrimFloat.is_nan x = true -> PrimFloat.is_nan (atan2 M y x) = true.

(** [Math.PI], the double nearest to pi: 3.141592653589793. *)
Definition PI : float := 0x1.921fb54442d18p+1%float.

(** The haversine term [a]. *)
Definition haversine (M : MathLibrary) (lat1 lon1 lat2 lon2 : float) : float :=
  let dLat := ((lat2 - lat1) * PI / 180)%float in
  let dLon := ((lon2 - lon1) * PI / 180)%float in
  (sin M (dLat / 2) * sin M (dLat / 2) +
   cos M (lat1 * PI / 180) * cos M (lat2 * PI / 180) *
   sin M (dLon / 2) * sin M (dLon / 2))%float.

Definition calculateDistance (M : MathLibrary) (lat1 lon1 lat2 lon2 : float) : float :=
  let R := 6371%float in
  let a := haversine M lat1 lon1 lat2 lon2 in
  let c := (2 * atan2 M (PrimFloat.sqrt a) (PrimFloat.sqrt (1 - a)))%float in
  (R * c)%float.

(** A library given by its values at the arguments that the calls
    [calculateDistance(-8, -179, 8, 1)], [calculateDistance(8, 1, -8, -179)]
    and [calculateDistance(-8, -179, -8, -179)] reach, and [NaN] elsewhere.
    [sin] and [cos] of 0.13962634015954636 (8 degrees) and [sin] of
    1.5707963267948966 are the doubles nearest to the exact values,
    0.13917310096006544, 0.9902680687415704 and 1, which V8 returns; the
    values at zero and the cases of [atan2] are those ECMAScript fixes. *)
Definition tabulated : MathLibrary :=
  mkMath
    (fun x =>
       if (x =? 0)%float then x
       else if (PrimFloat.abs x =? 0x1.1df46a2529d39p-3)%float then
         (if (x <? 0)%float then (- 0x1.1d06c968d9e19p-3)%float
          else 0x1.1d06c968d9e19p-3%float)
       else if (PrimFloat.abs x =? 0x1.921fb54442d18p+0)%float then
         (if (x <? 0)%float then (-1)%float else 1%float)
       else PrimFloat.nan)
    (fun x =>
       if (x =? 0)%float then 1%float
       else if (PrimFloat.abs x =? 0x1.1df46a2529d39p-3)%float then 0x1.fb046a930947ap-1%float
       else PrimFloat.nan)
    (fun y x =>
       if PrimFloat.is_nan y || PrimFloat.is_nan x then PrimFloat.nan
       else if (y =? 0)%float && (0 <? x)%float then y
       else PrimFloat.nan).

End Double.

(** ** JavaScript values, exceptions and effects *)

(** The objects of the engine that a property lookup on such a value can
    reach through the prototype chain: the prototypes of the built-in
    constructors, and the four legacy accessor functions of
    [Object.prototype]. *)
Inductive builtin : Type :=
| ObjectPrototype
| ArrayPrototype
| StringPrototype
| NumberPrototype
| BooleanPrototype
| FunctionPrototype
| LegacyAccessor (name : string).

(** A value as [JSON.parse] builds it, [undefined], and the built-in
    objects.  An object is the list of its own properties. *)
#[local] Unset Elimination Schemes.

Inductive value : Type :=
| VUndefined
| VNull
| VBool (b : bool)
| VNum (r : R)
| VStr (s : string)
| VArr (elements : list value)
| VObj (properties : list (string * value))
| VBuiltin (b : builtin).

#[local] Set Elimination Schemes.

Inductive error : Type :=
| TypeError
| SyntaxError
| NetworkError
| Error (message : string).

(** A computation that returns or throws. *)
Inductive result (A : Type) : Type :=
| Ok (a : A)
| Throw (e : error).

Arguments Ok {A} a.
Arguments Throw {A} e.

Definition bind {A B : Type} (m : result A) (k : A -> result B) : result B :=
  match m with
  | Ok a => k a
  | Throw e => Throw e
  end.

Notation "x <- m ;; k" := (bind m (fun x => k))
  (at level 61, m at next level, right associativity).

(** [array.map(f)] with a callback that may throw: the first exception
    leaves the loop. *)
Fixpoint mapM {A B : Type} (f : A -> result B) (l : list A) : result (list B) :=
  match l with
  | [] => Ok []
  | x :: xs => y <- f x ;; ys <- mapM f xs ;; Ok (y :: ys)
  end.

Fixpoint assoc {A : Type} (key : string) (o : list (string * A)) : option A :=
  match o with
  | [] => None
  | (k, v) :: rest => if String.eqb k key then Some v else assoc key rest
  end.

(** The properties of [Object.prototype] that are functions and hold an
    underscore in their name. *)
Definition legacyAccessors : list string :=
  ["__defineGetter__"; "__defineSetter__"; "__lookupGetter__"; "__lookupSetter__"]%string.

(** The prototype of [v] (of [Object(v)] for a primitive), for a value other
    than [undefined] and [null]. *)
Definition prototypeOf (v : value) : value :=
  match v with
  | VArr _ => VBuiltin ArrayPrototype
  | VStr _ => VBuiltin StringPrototype
  | VNum _ => VBuiltin NumberPrototype
  | VBool _ => VBuiltin BooleanPrototype
  | VBuiltin ObjectPrototype => VNull
  | VBuiltin (LegacyAccessor _) => VBuiltin FunctionPrototype
  | _ => VBuiltin ObjectPrototype
  end.

(** What the prototype chain of [v] answers for [key].  The keys this code
    looks up are [species], [thumbnailUrl] and [imageUrl], which no built-in
    prototype holds, and species keys, which hold an underscore: of the
    properties of the built-in prototypes only [__proto__] and the four
    legacy accessors do. *)
Definition inherited (v : value) (key : string) : value :=
  if String.eqb key "__proto__" then prototypeOf v
  else if existsb (String.eqb key) legacyAccessors then VBuiltin (LegacyAccessor key)
  else VUndefined.

(** [v[key]] and [v.key], for the keys this code uses (none is an index
    or [length]): a [TypeError] on [undefined] and [null]; the own property
    of an object; what the prototype chain answers otherwise. *)
Definition get (v : value) (key : string) : result value :=
  match v with
  | VUndefined | VNull => Throw TypeError
  | VObj properties =>
      Ok (match assoc key properties with Some x => x | None => inherited v key end)
  | _ => Ok (inherited v key)
  end.

(** [if (v)]. *)
Definition truthy (v : value) : bool :=
  match v with
  | VUndefined | VNull => false
  | VBool b => b
  | VNum r => if Req_dec_T r 0 then false else true
  | VStr s => negb (String.eqb s "")
  | VArr _ | VObj _ | VBuiltin _ => true
  end.

(** What the user and the console get to see. *)
Inductive Event : Type :=
| console_log (message : string)
| console_error (message : string)
| alert (message : string).

(** The outcome of [await fetch(...)] followed by [await response.json()]:
    the request is rejected, or a response arrives with its [ok] flag and a
    body; [json = None] is a body for which [response.json()] rejects. *)
Inductive Response (A : Type) : Type :=
| rejected
| response (ok : bool) (json : option A).

Arguments rejected {A}.
Arguments response {A} ok json.

(** ** lodash [_.groupBy] and [Object.entries] *)

Section GroupBy.

Context {A K : Type}.
Variable K_eq_dec : forall x y : K, {x = y} + {x <> y}.
Variable iteratee : A -> K.

(** One step of [_.groupBy]: push [x] on the array under [key], or start
    that array when the key is new (it goes last in insertion order). *)
Fixpoint groupBy_add (key : K) (x : A) (acc : list (K * list A)) : list (K * list A) :=
  match acc with
  | [] => [(key, [x])]
  | (k, group) :: rest =>
      if K_eq_dec k key then (k, group ++ [x]) :: rest
      else (k, group) :: groupBy_add key x rest
  end.

(** The object [_.groupBy(collection, iteratee)] builds, as its properties
    in insertion order. *)
Definition groupBy (collection : list A) : list (K * list A) :=
  fold_left (fun acc x => groupBy_add (iteratee x) x acc) collection [].

(** [x] goes under [key]. *)
Definition hasKey (key : K) (x : A) : bool :=
  if K_eq_dec (iteratee x) key then true else false.

(** What [_.groupBy] has built after the elements [seen]: no key twice,
    under each key the elements of that key in source order (at least one),
    and a key for every element. *)
Definition grouped (acc : list (K * list A)) (seen : list A) : Prop :=
  NoDup (map fst acc)
  /\ (forall k g, In (k, g) acc -> g = filter (hasKey k) seen /\ g <> [])
  /\ (forall x, In x seen -> In (iteratee x) (map fst acc)).

End GroupBy.

Definition digit (c : ascii) : option N :=
  let n := N_of_ascii c in
  if (48 <=? n)%N && (n <=? 57)%N then Some (n - 48)%N else None.

Fixpoint digits (s : string) (acc : N) : option N :=
  match s with
  | EmptyString => Some acc
  | String c rest =>
      match digit c with
      | Some d => digits rest (10 * acc + d)%N
      | None => None
      end
  end.

(** A property key is an array index when it is the canonical decimal
    form of an integer below [2^32 - 1]. *)
Definition arrayIndex (key : string) : option N :=
  match key with
  | EmptyString => None
  | String "0" EmptyString => Some 0%N
  | String "0" _ => None
  | _ =>
      match digits key 0 with
      | Some n => if (n <=? 4294967294)%N then Some n else None
      | None => None
      end
  end.

Section Entries.

Context {A : Type}.

Fixpoint indexed (o : list (string * A)) : list (N * (string * A)) :=
  match o with
  | [] => []
  | (k, v) :: rest =>
      match arrayIndex k with
      | Some n => (n, (k, v)) :: indexed rest
      | None => indexed rest
      end
  end.

Fixpoint named (o : list (string * A)) : list (string * A) :=
  match o with
  | [] => []
  | (k, v) :: rest =>
      match arrayIndex k with
      | Some _ => named rest
      | None => (k, v) :: named rest
      end
  end.

Fixpoint insertIndexed (e : N * (string * A)) (l : list (N * (string * A)))
  : list (N * (string * A)) :=
  match l with
  | [] => [e]
  | e' :: rest =>
      if (fst e <=? fst e')%N then e :: l else e' :: insertIndexed e rest
  end.

Definition sortIndexed (l : list (N * (string * A))) : list (N * (string * A)) :=
  fold_right insertIndexed [] l.

(** [Object.entries(o)] for an object with string keys: the array-index
    keys first, in ascending numeric order, then the other keys in insertion
    order. *)
Definition Object_entries (o : list (string * A)) : list (string * A) :=
  map snd (sortIndexed (indexed o)) ++ named o.

End Entries.

(** [[...new Set(l)]]: the distinct elements, each at its first occurrence. *)
Definition Set_of (l : list string) : list string :=
  fold_left (fun seen x => if in_dec string_dec x seen then seen else seen ++ [x]) l [].

(** ** Data *)

Module LatLng.

Record t : Type := mk { lat : R; lng : R }.

End LatLng.

(** One eBird observation of the response array (a [sighting]). *)
Module Sighting.

Record t : Type := mk {
  speciesCode : string;
  comName : string;
  sciName : string;
  lat : R;
  lng : R;
  obsDt : string;
  obsValid : bool;
  subId : string
}.

End Sighting.

(** One element of [birds]: the object [baseData].  [base] holds the fields
    spread from [speciesSightings[0]] ([None] when that is [undefined]); a photo
    field is [None] while the property does not exist. *)
Module Bird.

Record t : Type := mk {
  base : option Sighting.t;
  subIds : list string;
  thumbnailUrl : option value;
  fullPhotoUrl : option value
}.

Definition comName (b : t) : option string := option_map Sighting.comName (base b).

Definition obsDt (b : t) : option string := option_map Sighting.obsDt (base b).

(** The bird without its photo properties. *)
Definition withoutPhotos (b : t) : t := mk (base b) (subIds b) None None.

End Bird.

(** One element of [processedSightings] (a [location] of the map). *)
Module Location.

Record t : Type := mk { lat : R; lng : R; birds : list Bird.t }.

Definition withoutPhotos (l : t) : t :=
  mk (lat l) (lng l) (map Bird.withoutPhotos (birds l)).

End Location.

(** ** Processing the eBird response (the same text in both components) *)

(** [data.filter(sighting => sighting.obsValid === true)] *)
Definition validSightings (data : list Sighting.t) : list Sighting.t :=
  filter (fun sighting => Sighting.obsValid sighting) data.

(** The key [`${sighting.lat},${sighting.lng}`].  Two keys are the same
    string exactly when both numbers are the same, and
    [locationKey.split(',').map(Number)] reads the two numbers back, so the
    key is kept as the pair.  It holds a comma: it is never an array index,
    and [Object.entries(groupedByLocation)] is in insertion order. *)
Definition locationKey (sighting : Sighting.t) : R * R :=
  (Sighting.lat sighting, Sighting.lng sighting).

Definition locationKey_eq_dec (x y : R * R) : {x = y} + {x <> y}.
Proof. decide equality; apply Req_dec_T. Defined.

Definition groupedByLocation (valid : list Sighting.t) : list (R * R * list Sighting.t) :=
  groupBy locationKey_eq_dec locationKey valid.

(** [`${sighting.sciName}_${sighting.comName}`] *)
Definition speciesKey (sighting : Sighting.t) : string :=
  (Sighting.sciName sighting ++ "_" ++ Sighting.comName sighting)%string.

Definition uniqueSpecies (valid : list Sighting.t) : list string :=
  Set_of (map speciesKey valid).

(** The inner [try] block: [speciesPhotos] after the photo lookup, and what
    its [catch] logged.  [photoData.species] throws inside the block when the
    body is [null]. *)
Definition fetchSpeciesPhotos (photoResponse : Response value) : value * list Event :=
  match photoResponse with
  | rejected => (VObj [], [console_error "Error fetching species photos:"])
  | response false _ => (VObj [], [])
  | response true None => (VObj [], [console_error "Error fetching species photos:"])
  | response true (Some photoData) =>
      match get photoData "species" with
      | Ok species => (species, [])
      | Throw _ => (VObj [], [console_error "Error fetching species photos:"])
      end
  end.

(** The callback that builds [baseData] for one common name. *)
Definition baseData (speciesPhotos : value) (speciesSightings : list Sighting.t)
  : result Bird.t :=
  let first := hd_error speciesSightings in
  let subIds := map Sighting.subId speciesSightings in
  let key :=
    match first with
    | Some sighting => speciesKey sighting
    | None => "undefined_undefined"%string
    end in
  photoData <- get speciesPhotos key ;;
  if truthy photoData then
    thumbnailUrl <- get photoData "thumbnailUrl" ;;
    imageUrl <- get photoData "imageUrl" ;;
    Ok (Bird.mk first subIds (Some thumbnailUrl) (Some imageUrl))
  else Ok (Bird.mk first subIds None None).

(** [_.groupBy(sightings, 'comName')] *)
Definition birdsBySpecies (sightings : list Sighting.t) : list (string * list Sighting.t) :=
  groupBy string_dec Sighting.comName sightings.

Definition processedSightings (speciesPhotos : value)
  (grouped : list (R * R * list Sighting.t)) : result (list Location.t) :=
  mapM (fun entry : R * R * list Sighting.t =>
          let '(lat, lng, sightings) := entry in
          birds <- mapM (fun species : string * list Sighting.t =>
                           baseData speciesPhotos (snd species))
                        (Object_entries (birdsBySpecies sightings)) ;;
          Ok (Location.mk lat lng birds))
       grouped.

(** From [response.json()] to [processedSightings]: what both components
    do with the array [data], given the photo service. *)
Definition processData (speciesLookup : list string -> Response value)
  (data : list Sighting.t) : result (list Location.t) * list Event :=
  let valid := validSightings data in
  let grouped := groupedByLocation valid in
  let '(speciesPhotos, log) := fetchSpeciesPhotos (speciesLookup (uniqueSpecies valid)) in
  (processedSightings speciesPhotos grouped, log).

(** The Observation Normalizer on its own: [processedSightings] while
    [speciesPhotos] still is the [{}] it starts as, so that no photo of the
    service is attached.  (The [Throw] branch is never taken:
    [normalize_plain].) *)
Definition normalize (data : list Sighting.t) : list Location.t :=
  match processedSightings (VObj []) (groupedByLocation (validSightings data)) with
  | Ok clusters => clusters
  | Throw _ => []
  end.

(** ** Vocabulary of the properties *)

(** The key under which [baseData] looks up the photos of a group. *)
Definition groupKey (speciesSightings : list Sighting.t) : string :=
  match hd_error speciesSightings with
  | Some sighting => speciesKey sighting
  | None => "undefined_undefined"%string
  end.

(** [key] names a property that every object inherits: a lookup finds an
    object under it in a table that does not hold it. *)
Definition inheritedKey (key : string) : bool :=
  String.eqb key "__proto__" || existsb (String.eqb key) legacyAccessors.

(** The photo property a record gets from a table that does not hold its
    key: none, or, under an inherited key, the [thumbnailUrl] or [imageUrl]
    of the inherited object, which is [undefined]. *)
Definition inheritedPhoto (key : string) : option value :=
  if inheritedKey key then Some VUndefined else None.

(** [baseData] as a table that holds no key leaves it. *)
Definition plainBird (speciesSightings : list Sighting.t) : Bird.t :=
  Bird.mk (hd_error speciesSightings) (map Sighting.subId speciesSightings)
          (inheritedPhoto (groupKey speciesSightings))
          (inheritedPhoto (groupKey speciesSightings)).

Definition plainBirds (sightings : list Sighting.t) : list Bird.t :=
  map (fun species : string * list Sighting.t => plainBird (snd species))
      (Object_entries (birdsBySpecies sightings)).

Definition plainClusters (grouped : list (R * R * list Sighting.t)) : list Location.t :=
  map (fun entry : R * R * list Sighting.t =>
         let '(lat, lng, sightings) := entry in
         Location.mk lat lng (plainBirds sightings))
      grouped.

(** The valid observations of [data] at the coordinates [key] whose common
    name is [name], in source order: what one species record merges. *)
Definition mergedSightings (data : list Sighting.t) (key : R * R) (name : string)
  : list Sighting.t :=
  filter (hasKey string_dec Sighting.comName name)
         (filter (hasKey locationKey_eq_dec locationKey key) (validSightings data)).

(** The observation is one that the record of [name] at [key] merges. *)
Definition merges (key : R * R) (name : string) (s : Sighting.t) : bool :=
  Sighting.obsValid s
  && (hasKey locationKey_eq_dec locationKey key s
      && hasKey string_dec Sighting.comName name s).

(** [speciesPhotos[key]] throws: the table is [undefined] or [null]. *)
Definition unusable (speciesPhotos : value) : Prop :=
  speciesPhotos = VUndefined \/ speciesPhotos = VNull.

Definition clusterKey (c : Location.t) : R * R := (Location.lat c, Location.lng c).

(** The cluster lies at [key]. *)
Definition clusterAt (key : R * R) (c : Location.t) : bool :=
  if locationKey_eq_dec (clusterKey c) key then true else false.

(** The record is the one of the common name [name]. *)
Definition birdNamed (name : string) (b : Bird.t) : bool :=
  match Bird.comName b with
  | Some n => if string_dec n name then true else false
  | None => false
  end.

(** [t] is no older than any observation of [group].  eBird writes
    [obsDt] as ["YYYY-MM-DD hh:mm"], so the order of the strings is the
    order in time. *)
Definition mostRecent (t : string) (group : list Sighting.t) : Prop :=
  forall s, In s group -> String.leb (Sighting.obsDt s) t = true.

(** The primary query failed: the request was rejected (network error) or
    the response is not [ok]. *)
Definition primaryFailed {A : Type} (r : Response A) : Prop :=
  match r with
  | rejected => True
  | response ok _ => ok = false
  end.

(** The photo lookup failed in a way the inner [catch] sees: the request
    was rejected, the response is not [ok], or its body is no JSON or is
    [null]. *)
Definition lookupFailed (r : Response value) : Prop :=
  match r with
  | rejected => True
  | response false _ => True
  | response true None => True
  | response true (Some body) => body = VNull
  end.

(** What the clusters say about single observations: one entry (place,
    common name, submission id) for every submission id of every record. *)
Definition recordEntries (c : Location.t) : list (R * R * option string * string) :=
  flat_map (fun r : Bird.t =>
              map (fun id : string => (clusterKey c, Bird.comName r, id)) (Bird.subIds r))
           (Location.birds c).

Definition clusterEntries (clusters : list Location.t)
  : list (R * R * option string * string) :=
  flat_map recordEntries clusters.

(** The same three items of one observation. *)
Definition sightingEntry (s : Sighting.t) : R * R * option string * string :=
  (locationKey s, Some (Sighting.comName s), Sighting.subId s).

(** The key under which the photo of a record is looked up. *)
Definition birdKey (b : Bird.t) : option string := option_map speciesKey (Bird.base b).

(** The photo service answered 200 with the body [{ species: table }]. *)
Definition lookupAnswered (r : Response value) (table : list (string * value)) : Prop :=
  exists body, r = response true (Some (VObj body)) /\ assoc "species"%string body = Some (VObj table).

Section FirstOccurrences.

Context {K : Type}.
Variable K_eq_dec : forall x y : K, {x = y} + {x <> y}.

(** The distinct elements of [l], each at its first occurrence. *)
Fixpoint firstOccurrences (l : list K) : list K :=
  match l with
  | [] => []
  | x :: rest =>
      x :: filter (fun y => if K_eq_dec y x then false else true) (firstOccurrences rest)
  end.

End FirstOccurrences.

(** ** Sample observations *)

Definition robin_jan1 : Sighting.t :=
  Sighting.mk "amerob" "American Robin" "Turdus migratorius"
              36.97 (-122.03) "2025-01-01 08:00" true "S100".

Definition robin_jan3 : Sighting.t :=
  Sighting.mk "amerob" "American Robin" "Turdus migratorius"
              36.97 (-122.03) "2025-01-03 17:30" true "S200".

(** A second record of checklist [S100] for the same species and place. *)
Definition robin_again : Sighting.t :=
  Sighting.mk "amerob" "American Robin" "Turdus migratorius"
              36.97 (-122.03) "2025-01-01 08:00" true "S100".

Definition robin_invalid : Sighting.t :=
  Sighting.mk "amerob" "American Robin" "Turdus migratorius"
              36.97 (-122.03) "2025-01-02 12:00" false "S300".

(** An observation whose species key, [sciName + "_" + comName], reads
    [__proto__]. *)
Definition proto_bird : Sighting.t :=
  Sighting.mk "protob" "proto__" "_" 36.97 (-122.03) "2025-01-04 10:00" true "S500".

Definition towhee_jan2 : Sighting.t :=
  Sighting.mk "spotow" "Spotted Towhee" "Pipilo maculatus"
              36.97 (-122.03) "2025-01-02 09:15" true "S400".

(** A photo table that holds the American Robin and no other species, and
    a photo service that answers with it. *)
Definition robinTable : list (string * value) :=
  [("Turdus migratorius_American Robin"%string,
    VObj [("thumbnailUrl"%string, VStr "https://media.example/robin_thumb.jpg");
          ("imageUrl"%string, VStr "https://media.example/robin.jpg")])].

Definition robinPhotos (_ : list string) : Response value :=
  response true (Some (VObj [("species"%string, VObj robinTable)])).

(** The cycle raised its error notice ([alert] in the outer [catch]). *)
Definition surfacedError (events : list Event) : Prop :=
  In (alert "Error fetching bird sightings") events.

(** ** [src/client/src/components/BirdMap.jsx]: the gated component *)

Module BirdMap.

(** [lastFetchParams]: [{ daysBack, sightingType }] *)
Module Params.

Record t : Type := mk { daysBack : string; sightingType : string }.

End Params.

(** [mapRef.getBounds()]: the two corners of the viewport. *)
Record Bounds : Type := mkBounds { NorthEast : LatLng.t; SouthWest : LatLng.t }.

(** The search parameters of the request to [/api/birds].  [dist] is
    [radius.toFixed(1)], kept as the number the text denotes. *)
Module Query.

Record t : Type := mk { lat : R; lng : R; dist : R; type : string; back : string }.

End Query.

(** The two remote services, by what they answer to a request. *)
Record Env : Type := mkEnv {
  birds : Query.t -> Response (list Sighting.t);
  speciesLookup : list string -> Response value
}.

(** The state of the component ([useState]). [mapRef] is [None] until the
    map has mounted. *)
Record State : Type := mkState {
  mapCenter : LatLng.t;
  lastFetchLocation : option LatLng.t;
  lastFetchParams : option Params.t;
  birdSightings : list Location.t;
  loading : bool;
  mapRef : option Bounds;
  sightingType : string;
  daysBack : string
}.

Definition setLoading (b : bool) (st : State) : State :=
  mkState (mapCenter st) (lastFetchLocation st) (lastFetchParams st)
          (birdSightings st) b (mapRef st) (sightingType st) (daysBack st).

Definition setBirdSightings (l : list Location.t) (st : State) : State :=
  mkState (mapCenter st) (lastFetchLocation st) (lastFetchParams st)
          l (loading st) (mapRef st) (sightingType st) (daysBack st).

Definition setLastFetchLocation (p : LatLng.t) (st : State) : State :=
  mkState (mapCenter st) (Some p) (lastFetchParams st)
          (birdSightings st) (loading st) (mapRef st) (sightingType st) (daysBack st).

Definition setLastFetchParams (p : Params.t) (st : State) : State :=
  mkState (mapCenter st) (lastFetchLocation st) (Some p)
          (birdSightings st) (loading st) (mapRef st) (sightingType st) (daysBack st).

(** [!lastFetchParams || lastFetchParams.daysBack !== daysBack ||
     lastFetchParams.sightingType !== sightingType] *)
Definition paramsChanged (st : State) : bool :=
  match lastFetchParams st with
  | None => true
  | Some p =>
      negb (String.eqb (Params.daysBack p) (daysBack st))
      || negb (String.eqb (Params.sightingType p) (sightingType st))
  end.

(** The distance of the map centre from the last fetch, when there is one. *)
Definition distanceFromLastFetch (st : State) : option R :=
  match lastFetchLocation st with
  | Some last =>
      Some (calculateDistance (LatLng.lat last) (LatLng.lng last)
              (LatLng.lat (mapCenter st)) (LatLng.lng (mapCenter st)))
  | None => None
  end.

(** The early [return] of [fetchBirdData]:
    [!paramsChanged && lastFetchLocation] and [distance < 3]. *)
Definition skipFetch (st : State) : bool :=
  negb (paramsChanged st)
  && match distanceFromLastFetch st with
     | Some distance => if Rlt_dec distance 3 then true else false
     | None => false
     end.

(** The Fetch Gate: the cycle goes on to the request. *)
Definition shouldFetch (st : State) : bool := negb (skipFetch st).

(** [radius]: 25 by default, else from the corners of the viewport. *)
Definition radius (st : State) : R :=
  match mapRef st with
  | None => 25%R
  | Some bounds =>
      let ne := NorthEast bounds in
      let sw := SouthWest bounds in
      let xDistance :=
        calculateDistance (LatLng.lat ne) (LatLng.lng ne) (LatLng.lat ne) (LatLng.lng sw) in
      let yDistance :=
        calculateDistance (LatLng.lat ne) (LatLng.lng ne) (LatLng.lat sw) (LatLng.lng ne) in
      Math.min (Math.max xDistance yDistance / 2) 25
  end.

(** [Number(mapCenter.lat.toFixed(4))] and its longitude. *)
Definition roundedCenter (st : State) : LatLng.t :=
  LatLng.mk (toFixed (LatLng.lat (mapCenter st)) 4) (toFixed (LatLng.lng (mapCenter st)) 4).

Definition query (st : State) : Query.t :=
  Query.mk (LatLng.lat (roundedCenter st)) (LatLng.lng (roundedCenter st))
           (toFixed (radius st) 1) (sightingType st) (daysBack st).

(** The outer [try] block up to [processedSightings]. *)
Definition tryFetch (env : Env) (st : State) : result (list Location.t) * list Event :=
  match birds env (query st) with
  | rejected => (Throw NetworkError, [])
  | response false _ => (Throw (Error "Failed to fetch bird sightings"), [])
  | response true None => (Throw SyntaxError, [])
  | response true (Some data) => processData (speciesLookup env) data
  end.

(** One call of [fetchBirdData]: the state it leaves and what it showed. *)
Definition fetchBirdData (env : Env) (st : State) : State * list Event :=
  if skipFetch st then (st, [console_log "Skipping fetch"])
  else
    let st := setLoading true st in
    match tryFetch env st with
    | (Ok processed, log) =>
        let st := setBirdSightings processed st in
        let st := setLastFetchLocation (roundedCenter st) st in
        let st := setLastFetchParams (Params.mk (daysBack st) (sightingType st)) st in
        (setLoading false st, log)
    | (Throw _, log) =>
        (setLoading false st,
         log ++ [console_error "Error fetching bird data:";
                 alert "Error fetching bird sightings"])
    end.

(** The state the component mounts with, before the map is there. *)
Definition initial : State :=
  mkState (LatLng.mk 36.9741 (-122.0308)) None None [] false None "recent" "7".

(** The latitude, in degrees, that lies [km] kilometres north of the
    equator on the sphere of [calculateDistance]. *)
Definition degreesNorth (km : R) : R := (km * 180 / (6371 * PI))%R.

(** The state after a fetch at (36.97, -122.03) for the last 7 days of
    recent sightings, with the map then moved [km] kilometres north. *)
Definition movedNorth (km : R) : State :=
  mkState (LatLng.mk (36.97 + degreesNorth km) (-122.03))
          (Some (LatLng.mk 36.97 (-122.03))) (Some (Params.mk "7" "recent"))
          [] false None "recent" "7".

(** The same fetch, with the map where it was and the classification
    switched to rare. *)
Definition switchedToRare : State :=
  mkState (LatLng.mk 36.97 (-122.03))
          (Some (LatLng.mk 36.97 (-122.03))) (Some (Params.mk "7" "recent"))
          [] false None "rare" "7".

(** The viewport with corners (37.0, -122.0) and (36.9, -122.1). *)
Definition withViewport : State :=
  mkState (LatLng.mk 36.95 (-122.05)) None None [] false
          (Some (mkBounds (LatLng.mk 37.0 (-122.0)) (LatLng.mk 36.9 (-122.1))))
          "recent" "7".

(** Both services unreachable. *)
Definition offline : Env := mkEnv (fun _ => rejected) (fun _ => rejected).

(** eBird answers with one valid observation; the photo service answers
    200 with the body [{}]. *)
Definition lookupWithoutSpecies : Env :=
  mkEnv (fun _ => response true (Some [robin_jan1]))
        (fun _ => response true (Some (VObj []))).

(** The state after a fetch at (36.97, -122.03), with the map then moved by
    0.005 degrees in each coordinate. *)
Definition nudged : State :=
  mkState (LatLng.mk 36.975 (-122.035))
          (Some (LatLng.mk 36.97 (-122.03))) (Some (Params.mk "7" "recent"))
          [] false None "recent" "7".

(** eBird has nothing to report and the photo service is unreachable. *)
Definition quietDay : Env :=
  mkEnv (fun _ => response true (Some [])) (fun _ => rejected).

(** *** The handlers and the effect that call [fetchBirdData] *)

Definition setMapCenter (p : LatLng.t) (st : State) : State :=
  mkState p (lastFetchLocation st) (lastFetchParams st)
          (birdSightings st) (loading st) (mapRef st) (sightingType st) (daysBack st).

Definition setMapRef (bounds : Bounds) (st : State) : State :=
  mkState (mapCenter st) (lastFetchLocation st) (lastFetchParams st)
          (birdSightings st) (loading st) (Some bounds) (sightingType st) (daysBack st).

Definition setSightingType (value : string) (st : State) : State :=
  mkState (mapCenter st) (lastFetchLocation st) (lastFetchParams st)
          (birdSightings st) (loading st) (mapRef st) value (daysBack st).

Definition setDaysBack (value : string) (st : State) : State :=
  mkState (mapCenter st) (lastFetchLocation st) (lastFetchParams st)
          (birdSightings st) (loading st) (mapRef st) (sightingType st) value.

(** [handleMoveEnd]: [setMapCenter({ lat: center.lat, lng: center.lng })] *)
Definition handleMoveEnd (center : LatLng.t) (st : State) : State :=
  setMapCenter (LatLng.mk (LatLng.lat center) (LatLng.lng center)) st.

(** [handleDaysChange]: [setDaysBack(e.target.value)] *)
Definition handleDaysChange (value : string) (st : State) : State :=
  setDaysBack value st.

(** The map reports new bounds.  The state sees them through [mapRef], once
    it holds the map. *)
Definition boundsChanged (bounds : Bounds) (st : State) : State :=
  match mapRef st with
  | Some _ => setMapRef bounds st
  | None => st
  end.

(** The component between two events.  [fetchBirdData] is asynchronous: it
    runs up to its first [await], and the rest runs when the services have
    answered.  In between [pending] holds the state of the render whose
    [fetchBirdData] was called: the values that call closed over
    ([mapCenter], [daysBack], [sightingType]) and read before the first
    [await] (the bounds of the map). *)
Record Component : Type := mkComponent { state : State; pending : option State }.

(** [fetchBirdData] up to its first [await]: the early [return], or
    [setLoading(true)] and the request. *)
Definition beginFetch (c : Component) : Component * list Event :=
  if skipFetch (state c) then (c, [console_log "Skipping fetch"])
  else (mkComponent (setLoading true (state c)) (Some (state c)), []).

(** The rest of the pending call.  The setters act on the state as it is
    by then; what they write comes from the closure. *)
Definition completeFetch (env : Env) (c : Component) : Component * list Event :=
  match pending c with
  | None => (c, [])
  | Some closure =>
      match tryFetch env closure with
      | (Ok processed, log) =>
          let st := setBirdSightings processed (state c) in
          let st := setLastFetchLocation (roundedCenter closure) st in
          let st :=
            setLastFetchParams (Params.mk (daysBack closure) (sightingType closure)) st in
          (mkComponent (setLoading false st) None, log)
      | (Throw _, log) =>
          (mkComponent (setLoading false (state c)) None,
           log ++ [console_error "Error fetching bird data:";
                   alert "Error fetching bird sightings"])
      end
  end.

(** The effect on [[daysBack, sightingType, mapCenter]]:
    [if (!loading) fetchBirdData()]. *)
Definition effect (c : Component) : Component * list Event :=
  if loading (state c) then (c, []) else beginFetch c.

(** What can happen to the mounted component: the map hands over its
    reference ([ref={setMapRef}]); the map settles on a view ([moveend], with
    the bounds the map then reports); a choice in one of the two selects; the
    pending call gets its answers. *)
Inductive Action : Type :=
| mapReady (bounds : Bounds)
| moveend (center : LatLng.t) (bounds : Bounds)
| daysChange (value : string)
| typeChange (value : string)
| answered.

(** One action.  A select fires [onChange] on a new value only, and the
    select of the classification is [disabled] while [loading]; the effect
    runs after the render that a changed dependency causes. *)
Definition step (env : Env) (c : Component) (a : Action) : Component * list Event :=
  match a with
  | mapReady bounds => (mkComponent (setMapRef bounds (state c)) (pending c), [])
  | moveend center bounds =>
      let '(c', log) :=
        effect (mkComponent (handleMoveEnd center (boundsChanged bounds (state c)))
                            (pending c)) in
      (c', console_log "lat: " :: console_log "lng: " :: log)
  | daysChange value =>
      if String.eqb value (daysBack (state c)) then (c, [])
      else effect (mkComponent (handleDaysChange value (state c)) (pending c))
  | typeChange value =>
      if loading (state c) then (c, [])
      else if String.eqb value (sightingType (state c)) then (c, [])
      else effect (mkComponent (setSightingType value (state c)) (pending c))
  | answered => completeFetch env c
  end.

(** The component after mounting (the effect runs once, on the initial
    state) and a sequence of actions. *)
Definition mounted : Component := fst (effect (mkComponent initial None)).

Fixpoint run (env : Env) (c : Component) (actions : list Action) : Component :=
  match actions with
  | [] => c
  | a :: rest => run env (fst (step env c a)) rest
  end.

(** [c] is what some sequence of actions makes of the mounted component. *)
Definition reachable (env : Env) (c : Component) : Prop :=
  exists actions, c = run env mounted actions.

(** [loading] tells whether a call is pending. *)
Definition inStep (c : Component) : Prop :=
  loading (state c) = match pending c with Some _ => true | None => false end.

End BirdMap.

(** ** [src/unnamed/part_000]: the component with the update button *)

Module Part000.

Record Env : Type := mkEnv {
  birds : LatLng.t -> Response (list Sighting.t);
  speciesLookup : list string -> Response value
}.

Record State : Type := mkState {
  mapCenter : LatLng.t;
  lastQueriedPosition : option LatLng.t;
  birdSightings : list Location.t;
  showUpdateButton : bool;
  loading : bool
}.

Definition setLoading (b : bool) (st : State) : State :=
  mkState (mapCenter st) (lastQueriedPosition st) (birdSightings st) (showUpdateButton st) b.

Definition setBirdSightings (l : list Location.t) (st : State) : State :=
  mkState (mapCenter st) (lastQueriedPosition st) l (showUpdateButton st) (loading st).

Definition setLastQueriedPosition (p : LatLng.t) (st : State) : State :=
  mkState (mapCenter st) (Some p) (birdSightings st) (showUpdateButton st) (loading st).

Definition setMapCenter (p : LatLng.t) (st : State) : State :=
  mkState p (lastQueriedPosition st) (birdSightings st) (showUpdateButton st) (loading st).

Definition setShowUpdateButton (b : bool) (st : State) : State :=
  mkState (mapCenter st) (lastQueriedPosition st) (birdSightings st) b (loading st).

(** [handleMoveEnd]: the button shows on first load and after a move of
    10 km or more from the last queried position. *)
Definition handleMoveEnd (center : LatLng.t) (st : State) : State :=
  let st' := setMapCenter center st in
  match lastQueriedPosition st with
  | Some last =>
      let distance :=
        calculateDistance (LatLng.lat last) (LatLng.lng last)
                          (LatLng.lat center) (LatLng.lng center) in
      setShowUpdateButton (if Rge_dec distance 10 then true else false) st'
  | None => setShowUpdateButton true st'
  end.

Definition roundedCenter (st : State) : LatLng.t :=
  LatLng.mk (toFixed (LatLng.lat (mapCenter st)) 4) (toFixed (LatLng.lng (mapCenter st)) 4).

Definition tryFetch (env : Env) (st : State) : result (list Location.t) * list Event :=
  match birds env (roundedCenter st) with
  | rejected => (Throw NetworkError, [])
  | response false _ => (Throw (Error "Failed to fetch bird sightings"), [])
  | response true None => (Throw SyntaxError, [])
  | response true (Some data) => processData (speciesLookup env) data
  end.

(** One call of [fetchBirdData].  The last queried position is written
    before the request goes out ("Update last queried position before the
    fetch"). *)
Definition fetchBirdData (env : Env) (st : State) : State * list Event :=
  let st := setLoading true st in
  let st := setLastQueriedPosition (roundedCenter st) st in
  match tryFetch env st with
  | (Ok processed, log) => (setLoading false (setBirdSightings processed st), log)
  | (Throw _, log) =>
      (setLoading false st,
       log ++ [console_error "Error fetching bird data:";
               alert "Error fetching bird sightings"])
  end.

Definition initial : State :=
  mkState (LatLng.mk 36.9741 (-122.0308)) None [] false false.

Definition offline : Env := mkEnv (fun _ => rejected) (fun _ => rejected).


End Part000.

(** * Part II: properties *)

(** ** Geodistance *)

Section GeodistanceFacts.

Local Open Scope R_scope.

Lemma haversine_sym (lat1 lon1 lat2 lon2 : R) :
  haversine lat1 lon1 lat2 lon2 = haversine lat2 lon2 lat1 lon1.
Proof.
  unfold haversine; cbv zeta.
  replace ((lat1 - lat2) * PI / 180 / 2) with (- ((lat2 - lat1) * PI / 180 / 2)) by field.
  replace ((lon1 - lon2) * PI / 180 / 2) with (- ((lon2 - lon1) * PI / 180 / 2)) by field.
  rewrite !sin_neg. ring.
Qed.

Lemma haversine_same (lat lon : R) : haversine lat lon lat lon = 0.
Proof.
  unfold haversine; cbv zeta.
  replace ((lat - lat) * PI / 180 / 2) with 0 by field.
  replace ((lon - lon) * PI / 180 / 2) with 0 by field.
  rewrite sin_0. ring.
Qed.

Lemma atan2_0_1 : Math.atan2 0 1 = 0.
Proof.
  unfold Math.atan2.
  destruct (Rlt_dec 0 1) as [_ | H]; [| exfalso; lra].
  replace (0 / 1) with 0 by field. apply atan_0.
Qed.

(** Over the reals the formula is symmetric in its two points, and the
    distance of a point from itself is 0: what fails on doubles, below, is
    the rounding. *)
Lemma calculateDistance_symmetric_zero (lat1 lon1 lat2 lon2 : R) :
  calculateDistance lat1 lon1 lat2 lon2 = calculateDistance lat2 lon2 lat1 lon1
  /\ calculateDistance lat1 lon1 lat1 lon1 = 0.
Proof.
  split.
  - unfold calculateDistance. now rewrite (haversine_sym lat1 lon1 lat2 lon2).
  - unfold calculateDistance. rewrite haversine_same.
    replace (1 - 0) with 1 by ring.
    rewrite sqrt_0, sqrt_1, atan2_0_1. ring.
Qed.

(** Along a meridian the haversine formula returns the arc: [d] degrees of
    latitude are [6371 * d * PI / 180] kilometres. *)
Lemma calculateDistance_meridian (lat lon d : R) :
  0 <= d < 180 -> calculateDistance lat lon (lat + d) lon = 6371 * (d * PI / 180).
Proof.
  intros [Hd0 Hd180]. pose proof PI_RGT_0 as Hpi.
  set (theta := d * PI / 360).
  assert (Hlo : 0 <= d * PI) by (apply Rmult_le_pos; lra).
  assert (Hhi : d * PI < 180 * PI) by (apply Rmult_lt_compat_r; lra).
  assert (Ht : 0 <= theta < PI / 2).
  { unfold theta. generalize dependent (d * PI). intros x Hx0 Hx1. lra. }
  destruct Ht as [Ht0 Ht1].
  assert (Hsin : 0 <= sin theta) by (apply sin_ge_0; lra).
  assert (Hcos : 0 < cos theta) by (apply cos_gt_0; lra).
  assert (Ha : haversine lat lon (lat + d) lon = sin theta * sin theta).
  { unfold haversine; cbv zeta.
    replace ((lat + d - lat) * PI / 180 / 2) with theta by (unfold theta; field).
    replace ((lon - lon) * PI / 180 / 2) with 0 by field.
    rewrite sin_0. ring. }
  unfold calculateDistance. rewrite Ha.
  replace (1 - sin theta * sin theta) with (cos theta * cos theta)
    by (pose proof (sin2_cos2 theta) as H; unfold Rsqr in H; lra).
  rewrite !sqrt_square by lra.
  unfold Math.atan2. destruct (Rlt_dec 0 (cos theta)) as [_ | Hn]; [| contradiction].
  change (sin theta / cos theta) with (tan theta).
  rewrite atan_tan by lra. unfold theta. field.
Qed.

Lemma degreesNorth_distance (lat lon km : R) :
  0 <= km < 19000 ->
  calculateDistance lat lon (lat + BirdMap.degreesNorth km) lon = km.
Proof.
  intros [Hk0 Hk1]. pose proof PI2_3_2 as Hpi.
  assert (Hpos : 0 < 6371 * PI) by lra.
  rewrite calculateDistance_meridian.
  - unfold BirdMap.degreesNorth. field. lra.
  - unfold BirdMap.degreesNorth. split.
    + apply Rmult_le_pos; [lra |]. left. now apply Rinv_0_lt_compat.
    + apply Rmult_lt_reg_r with (6371 * PI); [assumption |].
      replace (km * 180 / (6371 * PI) * (6371 * PI)) with (km * 180) by (field; lra).
      lra.
Qed.

(** Rounding to one decimal does not lift a number above 25. *)
Lemma toFixed_1_le_25 (x : R) : x <= 25 -> toFixed x 1 <= 25.
Proof.
  intros Hx. unfold toFixed.
  replace (10 ^ 1) with 10 by (simpl; ring).
  destruct (Rlt_dec x 0) as [Hneg | Hpos].
  - destruct (base_Int_part (- x * 10 + / 2)) as [_ Hlow].
    assert (Hz : (0 <= Int_part (- x * 10 + / 2))%Z).
    { apply Z.lt_succ_r, lt_IZR. rewrite succ_IZR. lra. }
    apply IZR_le in Hz. lra.
  - destruct (base_Int_part (x * 10 + / 2)) as [Hup _].
    assert (Hz : (Int_part (x * 10 + / 2) <= 250)%Z).
    { apply Z.lt_succ_r, lt_IZR. rewrite succ_IZR. lra. }
    apply IZR_le in Hz. lra.
Qed.

End GeodistanceFacts.

(** *** On doubles *)

Lemma is_nan_spec (x : float) : is_nan x = true <-> Prim2SF x = S754_nan.
Proof.
  unfold is_nan. rewrite FloatAxioms.eqb_spec. unfold SFeqb.
  destruct (Prim2SF x) as [s | s | | s m e] eqn:E; simpl.
  - split; discriminate.
  - destruct s; split; discriminate.
  - split; reflexivity.
  - destruct s; rewrite Z.compare_refl, Pos.compare_cont_refl; simpl; split; discriminate.
Qed.

(** [Math.sqrt] of a negative number is [NaN]. *)
Lemma sqrt_negative (x : float) : (x <? 0)%float = true -> is_nan (PrimFloat.sqrt x) = true.
Proof.
  rewrite ltb_spec. intros H. apply is_nan_spec. rewrite sqrt_spec.
  change (Prim2SF 0) with (S754_zero false) in H.
  unfold SFltb, SFcompare in H. unfold SF64sqrt, SFsqrt.
  destruct (Prim2SF x) as [s | s | | s m e]; try discriminate;
    destruct s; try discriminate; reflexivity.
Qed.

Lemma mul_nan (c x : float) : is_nan x = true -> is_nan (c * x)%float = true.
Proof.
  rewrite !is_nan_spec, mul_spec. intros ->. unfold SF64mul, SFmul.
  now destruct (Prim2SF c).
Qed.

(** [NaN === y], [NaN < y] and [NaN >= y] are false. *)
Lemma nan_compares_false (x y : float) :
  is_nan x = true ->
  (x =? y)%float = false /\ (x <? y)%float = false /\ (y <=? x)%float = false.
Proof.
  rewrite is_nan_spec, FloatAxioms.eqb_spec, ltb_spec, leb_spec. intros ->.
  unfold SFeqb, SFltb, SFleb. simpl. split; [reflexivity | split; [reflexivity |]].
  now destruct (Prim2SF y).
Qed.

Lemma tabulated_conforms : Double.conforms Double.tabulated.
Proof. intros y x Hx. simpl. rewrite Hx, orb_true_r. reflexivity. Qed.

(** C8 fails on the code.  Whatever the engine's library, when the
    haversine term comes out so that [1 - a] is negative, [Math.sqrt(1 - a)]
    is [NaN] and so is the distance: it is not equal to the distance taken
    the other way round, nor to itself, and neither [distance < 3] nor
    [distance >= 10] holds of it.  The term is never clamped to [1]. *)
Theorem calculateDistance_not_a_number
  (M : Double.MathLibrary) (lat1 lon1 lat2 lon2 : float) :
  Double.conforms M ->
  (1 - Double.haversine M lat1 lon1 lat2 lon2 <? 0)%float = true ->
  let d := Double.calculateDistance M lat1 lon1 lat2 lon2 in
  is_nan d = true
  /\ (d =? Double.calculateDistance M lat2 lon2 lat1 lon1)%float = false
  /\ (d =? d)%float = false
  /\ (d <? 3)%float = false
  /\ (10 <=? d)%float = false.
Proof.
  intros Hlib Hneg d.
  assert (Hd : is_nan d = true).
  { unfold d, Double.calculateDistance. cbv zeta.
    apply mul_nan, mul_nan, Hlib. now apply sqrt_negative. }
  split; [exact Hd |].
  destruct (nan_compares_false d (Double.calculateDistance M lat2 lon2 lat1 lon1) Hd)
    as [H1 _].
  destruct (nan_compares_false d d Hd) as [H2 _].
  destruct (nan_compares_false d 3 Hd) as [_ [H3 _]].
  destruct (nan_compares_false d 10 Hd) as [_ [_ H4]].
  now repeat split.
Qed.

(** The failing input: between (-8, -179) and (8, 1), 176 degrees apart, the
    term is 1.0000000000000002 and the distance is [NaN], in either
    direction. *)
Lemma calculateDistance_not_a_number_witness :
  Double.haversine Double.tabulated (-8) (-179) 8 1 = 0x1.0000000000001p+0%float
  /\ is_nan (Double.calculateDistance Double.tabulated (-8) (-179) 8 1) = true
  /\ (Double.calculateDistance Double.tabulated (-8) (-179) 8 1
       =? Double.calculateDistance Double.tabulated 8 1 (-8) (-179))%float = false.
Proof.
  split; [vm_compute; reflexivity |].
  destruct (calculateDistance_not_a_number Double.tabulated (-8) (-179) 8 1)
    as [H1 [H2 _]].
  - exact tabulated_conforms.
  - vm_compute. reflexivity.
  - split; [exact H1 | exact H2].
Defined.

(** The same for every engine whose library returns, at the arguments that
    this call reaches, the doubles nearest to the exact sine and cosine. *)
Lemma failing_input_every_engine (M : Double.MathLibrary) :
  Double.conforms M ->
  Double.sin M 0x1.1df46a2529d39p-3 = 0x1.1d06c968d9e19p-3%float ->
  Double.cos M 0x1.1df46a2529d39p-3 = 0x1.fb046a930947ap-1%float ->
  Double.cos M (- 0x1.1df46a2529d39p-3) = 0x1.fb046a930947ap-1%float ->
  Double.sin M 0x1.921fb54442d18p+0 = 1%float ->
  Double.haversine M (-8) (-179) 8 1 = 0x1.0000000000001p+0%float
  /\ is_nan (Double.calculateDistance M (-8) (-179) 8 1) = true.
Proof.
  intros Hlib Hs Hc Hc' Hs1.
  assert (Ha : Double.haversine M (-8) (-179) 8 1 = 0x1.0000000000001p+0%float).
  { unfold Double.haversine. cbv zeta.
    change ((8 - -8) * Double.PI / 180 / 2)%float with 0x1.1df46a2529d39p-3%float.
    change ((1 - -179) * Double.PI / 180 / 2)%float with 0x1.921fb54442d18p+0%float.
    change (-8 * Double.PI / 180)%float with (- 0x1.1df46a2529d39p-3)%float.
    change (8 * Double.PI / 180)%float with 0x1.1df46a2529d39p-3%float.
    rewrite Hs, Hc, Hc', Hs1. reflexivity. }
  split; [exact Ha |].
  unfold Double.calculateDistance. cbv zeta. rewrite Ha.
  apply mul_nan, mul_nan, Hlib. reflexivity.
Qed.

(** At that point itself the distance is 0, as C8 says. *)
Example calculateDistance_same_point :
  Double.calculateDistance Double.tabulated (-8) (-179) (-8) (-179) = 0%float.
Proof. vm_compute. reflexivity. Qed.

(** ** Fetch Gate and Radius Estimator *)

Section GateFacts.

Import BirdMap.

Lemma paramsChanged_false (st : State) :
  paramsChanged st = false <->
  exists p, lastFetchParams st = Some p
            /\ Params.daysBack p = daysBack st
            /\ Params.sightingType p = sightingType st.
Proof.
  unfold paramsChanged. destruct (lastFetchParams st) as [p |].
  - rewrite orb_false_iff, !negb_false_iff, !String.eqb_eq.
    split.
    + intros [Hd Ht]. now exists p.
    + intros [q [Hq [Hd Ht]]]. now inversion Hq; subst.
  - split; [discriminate | intros [p [Hp _]]; discriminate].
Qed.

(** C1. The gate lets the cycle through when nothing was fetched before;
    when the day count or the classification differs from the last fetch;
    and otherwise exactly when the map centre is at least 3 km from the
    centre of the last fetch. *)
Theorem fetch_gate_policy (st : State) :
  (lastFetchParams st = None \/ lastFetchLocation st = None -> shouldFetch st = true)
  /\ (forall p, lastFetchParams st = Some p ->
        Params.daysBack p <> daysBack st \/ Params.sightingType p <> sightingType st ->
        shouldFetch st = true)
  /\ (forall p last, lastFetchParams st = Some p -> lastFetchLocation st = Some last ->
        Params.daysBack p = daysBack st -> Params.sightingType p = sightingType st ->
        (shouldFetch st = true <->
         (3 <= calculateDistance (LatLng.lat last) (LatLng.lng last)
                 (LatLng.lat (mapCenter st)) (LatLng.lng (mapCenter st)))%R)).
Proof.
  unfold shouldFetch, skipFetch, distanceFromLastFetch.
  split; [| split].
  - intros [Hp | Hl].
    + unfold paramsChanged. now rewrite Hp.
    + rewrite Hl. now rewrite andb_false_r.
  - intros p Hp Hdiff.
    assert (Hc : paramsChanged st = true).
    { destruct (paramsChanged st) eqn:E; [reflexivity |].
      apply paramsChanged_false in E. destruct E as [q [Hq [Hd Ht]]].
      rewrite Hp in Hq. inversion Hq; subst q. tauto. }
    now rewrite Hc.
  - intros p last Hp Hl Hd Ht.
    assert (Hc : paramsChanged st = false).
    { apply paramsChanged_false. now exists p. }
    rewrite Hc, Hl. simpl.
    destruct (Rlt_dec _ 3) as [Hlt | Hge]; simpl.
    + split; [discriminate | intros H; exfalso; lra].
    + split; [intros _; lra | reflexivity].
Qed.

(** C3. With a viewport the radius is [min(max(eastWest, northSouth) / 2, 25)],
    the two extents being measured from the north-east corner; without one
    it is 25; it never exceeds 25, and neither does the [dist] of the
    request. *)
Theorem radius_estimate (st : State) :
  (forall bounds, mapRef st = Some bounds ->
     let ne := NorthEast bounds in
     let sw := SouthWest bounds in
     let eastWest :=
       calculateDistance (LatLng.lat ne) (LatLng.lng ne) (LatLng.lat ne) (LatLng.lng sw) in
     let northSouth :=
       calculateDistance (LatLng.lat ne) (LatLng.lng ne) (LatLng.lat sw) (LatLng.lng ne) in
     radius st = Rmin (Rmax eastWest northSouth / 2) 25)
  /\ (mapRef st = None -> radius st = 25%R)
  /\ (radius st <= 25)%R
  /\ (Query.dist (query st) <= 25)%R.
Proof.
  assert (Hle : (radius st <= 25)%R).
  { unfold radius. destruct (mapRef st) as [bounds |].
    - apply Rmin_r.
    - lra. }
  repeat split.
  - intros bounds Hb. unfold radius. now rewrite Hb.
  - intros Hb. unfold radius. now rewrite Hb.
  - exact Hle.
  - simpl. now apply toFixed_1_le_25.
Qed.

(** The examples of the specification: 1 km from the last fetch with the
    same parameters the gate holds the cycle back, 5 km away it lets it
    through, and a switch to rare sightings passes at no distance at all. *)
Lemma fetch_gate_policy_witness :
  shouldFetch (movedNorth 1) = false
  /\ shouldFetch (movedNorth 5) = true
  /\ shouldFetch switchedToRare = true.
Proof.
  split; [| split].
  - destruct (shouldFetch (movedNorth 1)) eqn:E; [| reflexivity].
    apply (proj2 (proj2 (fetch_gate_policy (movedNorth 1)))
             (Params.mk "7" "recent") (LatLng.mk 36.97 (-122.03))) in E;
      try reflexivity.
    simpl in E. rewrite degreesNorth_distance in E; lra.
  - apply (proj2 (proj2 (fetch_gate_policy (movedNorth 5)))
             (Params.mk "7" "recent") (LatLng.mk 36.97 (-122.03)));
      try reflexivity.
    simpl. rewrite degreesNorth_distance; lra.
  - apply (proj1 (proj2 (fetch_gate_policy switchedToRare)) (Params.mk "7" "recent"));
      [reflexivity |].
    right. discriminate.
Defined.

Lemma radius_estimate_witness :
  (radius withViewport
   = Rmin (Rmax (calculateDistance 37.0 (-122.0) 37.0 (-122.1))
                (calculateDistance 37.0 (-122.0) 36.9 (-122.0)) / 2) 25)
  /\ (radius withViewport <= 25)%R
  /\ radius initial = 25%R.
Proof.
  split; [| split].
  - apply (proj1 (radius_estimate withViewport)
             (mkBounds (LatLng.mk 37.0 (-122.0)) (LatLng.mk 36.9 (-122.1)))).
    reflexivity.
  - apply (proj1 (proj2 (proj2 (radius_estimate withViewport)))).
  - apply (proj1 (proj2 (radius_estimate initial))). reflexivity.
Defined.

End GateFacts.

(** ** [_.groupBy] and [Object.entries] *)

Section GroupByFacts.

Context {A K : Type}.
Variable K_eq_dec : forall x y : K, {x = y} + {x <> y}.
Variable iteratee : A -> K.

Local Abbreviation hasKey := (hasKey K_eq_dec iteratee).
Local Abbreviation grouped := (grouped K_eq_dec iteratee).

Lemma hasKey_true (key : K) (x : A) : hasKey key x = true <-> iteratee x = key.
Proof. unfold hasKey. destruct (K_eq_dec (iteratee x) key); split; congruence. Qed.

Lemma groupBy_add_keys_old (key : K) (x : A) (acc : list (K * list A)) :
  In key (map fst acc) ->
  map fst (groupBy_add K_eq_dec key x acc) = map fst acc.
Proof.
  induction acc as [| [k group] rest IH]; simpl; intros Hin.
  - contradiction.
  - destruct (K_eq_dec k key) as [Heq | Hneq]; simpl.
    + reflexivity.
    + destruct Hin as [Hk | Hin]; [contradiction |].
      now rewrite IH.
Qed.

Lemma groupBy_add_keys_new (key : K) (x : A) (acc : list (K * list A)) :
  ~ In key (map fst acc) ->
  map fst (groupBy_add K_eq_dec key x acc) = map fst acc ++ [key].
Proof.
  induction acc as [| [k group] rest IH]; simpl; intros Hnin.
  - reflexivity.
  - destruct (K_eq_dec k key) as [Heq | Hneq]; simpl.
    + exfalso. apply Hnin. now left.
    + rewrite IH; [reflexivity |]. intros Hin. apply Hnin. now right.
Qed.

(** Where an entry of the object comes from after one more element. *)
Lemma groupBy_add_In (key : K) (x : A) (acc : list (K * list A)) (k : K) (g : list A) :
  NoDup (map fst acc) ->
  In (k, g) (groupBy_add K_eq_dec key x acc) ->
  (k <> key /\ In (k, g) acc)
  \/ (k = key /\ exists g0, In (key, g0) acc /\ g = g0 ++ [x])
  \/ (k = key /\ ~ In key (map fst acc) /\ g = [x]).
Proof.
  induction acc as [| [k0 g0] rest IH]; simpl; intros Hnd Hin.
  - destruct Hin as [Heq | []]. inversion Heq; subst. right; right. tauto.
  - inversion Hnd as [| ? ? Hk0 Hrest]; subst.
    destruct (K_eq_dec k0 key) as [Heq | Hneq]; simpl in Hin.
    + subst k0. destruct Hin as [Hhd | Htl].
      * inversion Hhd; subst. right; left. split; [reflexivity |].
        exists g0. split; [now left | reflexivity].
      * left. split; [| now right].
        intros ->. apply Hk0. apply in_map_iff. now exists (key, g).
    + destruct Hin as [Hhd | Htl].
      * inversion Hhd; subst. left. split; [assumption | now left].
      * destruct (IH Hrest Htl) as [[Hne Hi] | [[He [g1 [Hi Hg]]] | [He [Hni Hg]]]].
        -- left. split; [assumption | now right].
        -- right; left. split; [assumption |]. exists g1. split; [now right | assumption].
        -- right; right. split; [assumption |]. split; [| assumption].
           intros [Hk | Hi]; [congruence | contradiction].
Qed.

Lemma filter_hasKey_absent (key : K) (acc : list (K * list A)) (seen : list A) :
  grouped acc seen -> ~ In key (map fst acc) -> filter (hasKey key) seen = [].
Proof.
  intros [_ [_ Hcov]] Hnin.
  induction seen as [| y seen IH]; simpl; [reflexivity |].
  destruct (hasKey key y) eqn:E.
  - apply hasKey_true in E. exfalso. apply Hnin. rewrite <- E. apply Hcov. now left.
  - apply IH. intros z Hz. apply Hcov. now right.
Qed.

Lemma grouped_add (acc : list (K * list A)) (seen : list A) (x : A) :
  grouped acc seen ->
  grouped (groupBy_add K_eq_dec (iteratee x) x acc) (seen ++ [x]).
Proof.
  intros Hg. pose proof Hg as [Hnd [Hent Hcov]].
  assert (Hx : hasKey (iteratee x) x = true) by now apply hasKey_true.
  split; [| split].
  - destruct (in_dec K_eq_dec (iteratee x) (map fst acc)) as [Hin | Hnin].
    + now rewrite groupBy_add_keys_old.
    + rewrite groupBy_add_keys_new by assumption.
      apply NoDup_rev in Hnd. rewrite <- (rev_involutive (map fst acc ++ _)).
      apply NoDup_rev. rewrite rev_app_distr. simpl. constructor; [| assumption].
      now rewrite <- in_rev.
  - intros k g Hin. rewrite filter_app. simpl.
    destruct (groupBy_add_In _ _ _ _ _ Hnd Hin)
      as [[Hne Hi] | [[He [g0 [Hi Hgeq]]] | [He [Hni Hgeq]]]].
    + destruct (Hent _ _ Hi) as [Hf Hnil].
      assert (E : hasKey k x = false).
      { destruct (hasKey k x) eqn:E; [| reflexivity].
        apply hasKey_true in E. congruence. }
      rewrite E, app_nil_r. now split.
    + subst k g. destruct (Hent _ _ Hi) as [Hf _].
      rewrite Hx, <- Hf. split; [reflexivity |]. now destruct g0.
    + subst k g. rewrite Hx, (filter_hasKey_absent _ _ _ Hg Hni).
      split; [reflexivity | discriminate].
  - intros y Hy. apply in_app_or in Hy.
    destruct (in_dec K_eq_dec (iteratee x) (map fst acc)) as [Hin | Hnin].
    + rewrite groupBy_add_keys_old by assumption.
      destruct Hy as [Hy | [<- | []]]; [now apply Hcov | assumption].
    + rewrite groupBy_add_keys_new by assumption. apply in_or_app.
      destruct Hy as [Hy | [<- | []]]; [left; now apply Hcov | right; now left].
Qed.

Lemma grouped_fold (l : list A) :
  forall acc seen, grouped acc seen ->
  grouped (fold_left (fun acc x => groupBy_add K_eq_dec (iteratee x) x acc) l acc) (seen ++ l).
Proof.
  induction l as [| x l IH]; simpl; intros acc seen Hg.
  - now rewrite app_nil_r.
  - replace (seen ++ x :: l) with ((seen ++ [x]) ++ l) by now rewrite <- app_assoc.
    apply IH. now apply grouped_add.
Qed.

Lemma groupBy_grouped (l : list A) : grouped (groupBy K_eq_dec iteratee l) l.
Proof.
  unfold groupBy. apply (grouped_fold l [] []).
  split; [constructor | split]; intros; contradiction.
Qed.

Lemma groupBy_NoDup (l : list A) : NoDup (map fst (groupBy K_eq_dec iteratee l)).
Proof. apply groupBy_grouped. Qed.

Lemma groupBy_In (l : list A) (k : K) (g : list A) :
  In (k, g) (groupBy K_eq_dec iteratee l) -> g = filter (hasKey k) l /\ g <> [].
Proof. apply groupBy_grouped. Qed.

Lemma groupBy_covers (l : list A) (x : A) :
  In x l -> exists g, In (iteratee x, g) (groupBy K_eq_dec iteratee l).
Proof.
  intros Hx. destruct (groupBy_grouped l) as [_ [_ Hcov]].
  apply Hcov, in_map_iff in Hx. destruct Hx as [[k g] [Hk Hin]].
  simpl in Hk. subst k. now exists g.
Qed.

End GroupByFacts.

Section EntriesFacts.

Context {A : Type}.

Lemma insertIndexed_perm (e : N * (string * A)) (l : list (N * (string * A))) :
  Permutation (insertIndexed e l) (e :: l).
Proof.
  induction l as [| e' rest IH]; simpl.
  - apply Permutation_refl.
  - destruct (fst e <=? fst e')%N.
    + apply Permutation_refl.
    + apply perm_trans with (e' :: e :: rest).
      * now apply perm_skip.
      * apply perm_swap.
Qed.

Lemma sortIndexed_perm (l : list (N * (string * A))) : Permutation (sortIndexed l) l.
Proof.
  induction l as [| e rest IH]; simpl.
  - apply Permutation_refl.
  - apply perm_trans with (e :: sortIndexed rest).
    + apply insertIndexed_perm.
    + now apply perm_skip.
Qed.

Lemma indexed_named_perm (o : list (string * A)) :
  Permutation (map snd (indexed o) ++ named o) o.
Proof.
  induction o as [| [k v] rest IH]; simpl.
  - apply Permutation_refl.
  - destruct (arrayIndex k); simpl.
    + now apply perm_skip.
    + apply Permutation_sym, Permutation_cons_app, Permutation_sym, IH.
Qed.

(** [Object.entries] lists every own property once. *)
Lemma Object_entries_perm (o : list (string * A)) : Permutation (Object_entries o) o.
Proof.
  unfold Object_entries.
  apply perm_trans with (map snd (indexed o) ++ named o).
  - apply Permutation_app_tail, Permutation_map, sortIndexed_perm.
  - apply indexed_named_perm.
Qed.

Lemma Object_entries_In (o : list (string * A)) (e : string * A) :
  In e (Object_entries o) <-> In e o.
Proof.
  split; apply Permutation_in;
    [apply Object_entries_perm | apply Permutation_sym, Object_entries_perm].
Qed.

Lemma Object_entries_NoDup (o : list (string * A)) :
  NoDup (map fst o) -> NoDup (map fst (Object_entries o)).
Proof.
  apply Permutation_NoDup, Permutation_map, Permutation_sym, Object_entries_perm.
Qed.

End EntriesFacts.

Example arrayIndex_examples :
  map arrayIndex ["0"; "12"; "4294967294"; "4294967295"; "01"; "1a"; ""]%string
  = [Some 0%N; Some 12%N; Some 4294967294%N; None; None; None; None].
Proof. reflexivity. Qed.

Example Object_entries_order :
  Object_entries [("b", 1); ("2", 2); ("a", 3); ("1", 4); ("10", 5); ("01", 6)]%string
  = [("1", 4); ("2", 2); ("10", 5); ("b", 1); ("a", 3); ("01", 6)]%string.
Proof. reflexivity. Qed.

Example groupBy_order :
  groupBy string_dec fst [("x", 1); ("y", 2); ("x", 3); ("z", 4); ("y", 5)]%string
  = [("x", [("x", 1); ("x", 3)]); ("y", [("y", 2); ("y", 5)]); ("z", [("z", 4)])]%string.
Proof. reflexivity. Qed.

Example Set_of_order : Set_of ["a"; "b"; "a"; "c"; "b"]%string = ["a"; "b"; "c"]%string.
Proof. reflexivity. Qed.

(** ** Callbacks that may throw *)

Section MapMFacts.

Context {A B : Type}.
Variable f : A -> result B.

Lemma mapM_ok (g : A -> B) (l : list A) :
  (forall x, In x l -> f x = Ok (g x)) -> mapM f l = Ok (map g l).
Proof.
  induction l as [| x l IH]; simpl; intros H.
  - reflexivity.
  - rewrite (H x) by now left. simpl.
    rewrite IH by (intros y Hy; apply H; now right). reflexivity.
Qed.

Lemma mapM_Ok_inv {C : Type} (p : B -> C) (h : A -> C) (l : list A) :
  (forall x y, In x l -> f x = Ok y -> p y = h x) ->
  forall ys, mapM f l = Ok ys -> map p ys = map h l.
Proof.
  induction l as [| x l IH]; simpl; intros H ys Hys.
  - inversion Hys. reflexivity.
  - destruct (f x) as [y |] eqn:Ey; simpl in Hys; [| discriminate].
    destruct (mapM f l) as [ys' |] eqn:El; simpl in Hys; [| discriminate].
    inversion Hys; subst ys. simpl. f_equal.
    + apply H; [now left | assumption].
    + apply IH; [| reflexivity]. intros z w Hz. apply H. now right.
Qed.

Lemma mapM_defined (l : list A) :
  (forall x, In x l -> exists y, f x = Ok y) -> exists ys, mapM f l = Ok ys.
Proof.
  induction l as [| x l IH]; simpl; intros H.
  - now exists [].
  - destruct (H x) as [y Hy]; [now left |].
    destruct IH as [ys Hys]; [intros z Hz; apply H; now right |].
    exists (y :: ys). now rewrite Hy, Hys.
Qed.

Lemma mapM_throw_head (x : A) (l : list A) (e : error) :
  f x = Throw e -> mapM f (x :: l) = Throw e.
Proof. intros H. simpl. now rewrite H. Qed.

End MapMFacts.

(** ** The photo table and [baseData] *)

Lemma get_unusable (v : value) (key : string) : unusable v -> get v key = Throw TypeError.
Proof. intros [-> | ->]; reflexivity. Qed.

Lemma get_usable (v : value) (key : string) : ~ unusable v -> exists x, get v key = Ok x.
Proof.
  unfold unusable. intros H.
  destruct v; simpl; try (eexists; reflexivity); exfalso; apply H; auto.
Qed.

Lemma truthy_usable (v : value) : truthy v = true -> ~ unusable v.
Proof. intros Ht [-> | ->]; discriminate. Qed.

Lemma baseData_frame (speciesPhotos : value) (speciesSightings : list Sighting.t) (b : Bird.t) :
  baseData speciesPhotos speciesSightings = Ok b ->
  Bird.withoutPhotos b = Bird.withoutPhotos (plainBird speciesSightings).
Proof.
  unfold baseData.
  destruct (get speciesPhotos _) as [photoData |]; simpl; [| discriminate].
  destruct (truthy photoData).
  - destruct (get photoData "thumbnailUrl") as [t |]; simpl; [| discriminate].
    destruct (get photoData "imageUrl") as [i |]; simpl; [| discriminate].
    intros H. inversion H. reflexivity.
  - intros H. inversion H. reflexivity.
Qed.

(** A table that does not hold the key of a group leaves [plainBird]. *)
Lemma baseData_absent (table : list (string * value)) (speciesSightings : list Sighting.t) :
  assoc (groupKey speciesSightings) table = None ->
  baseData (VObj table) speciesSightings = Ok (plainBird speciesSightings).
Proof.
  intros Ha.
  unfold baseData, plainBird, inheritedPhoto, inheritedKey. fold (groupKey speciesSightings).
  set (key := groupKey speciesSightings) in *.
  replace (get (VObj table) key) with (Ok (inherited (VObj table) key))
    by (cbn [get]; now rewrite Ha).
  cbn [bind]. unfold inherited.
  destruct (String.eqb key "__proto__"); [reflexivity |]. cbn [orb].
  destruct (existsb (String.eqb key) legacyAccessors); reflexivity.
Qed.

Lemma baseData_no_table (speciesSightings : list Sighting.t) :
  baseData (VObj []) speciesSightings = Ok (plainBird speciesSightings).
Proof. now apply baseData_absent. Qed.

(** Under the key [__proto__] the empty table answers with
    [Object.prototype]: the record gets both photo properties, [undefined].
    Under the key of the robin it answers [undefined], and the record gets
    none. *)
Example baseData_inherited_key :
  speciesKey proto_bird = "__proto__"%string
  /\ get (VObj []) (speciesKey proto_bird) = Ok (VBuiltin ObjectPrototype)
  /\ baseData (VObj []) [proto_bird]
     = Ok (Bird.mk (Some proto_bird) ["S500"%string] (Some VUndefined) (Some VUndefined))
  /\ baseData (VObj []) [robin_jan1]
     = Ok (Bird.mk (Some robin_jan1) ["S100"%string] None None).
Proof. repeat split. Qed.

Lemma baseData_defined (speciesPhotos : value) (speciesSightings : list Sighting.t) :
  ~ unusable speciesPhotos -> exists b, baseData speciesPhotos speciesSightings = Ok b.
Proof.
  intros Hu. unfold baseData.
  destruct (get_usable _ (match hd_error speciesSightings with
                          | Some sighting => speciesKey sighting
                          | None => "undefined_undefined"%string
                          end) Hu) as [photoData Hp].
  rewrite Hp. simpl.
  destruct (truthy photoData) eqn:Et.
  - apply truthy_usable in Et.
    destruct (get_usable _ "thumbnailUrl" Et) as [t Ht].
    destruct (get_usable _ "imageUrl" Et) as [i Hi].
    rewrite Ht, Hi. simpl. eexists; reflexivity.
  - eexists; reflexivity.
Qed.

Lemma baseData_throws (speciesPhotos : value) (speciesSightings : list Sighting.t) :
  unusable speciesPhotos -> baseData speciesPhotos speciesSightings = Throw TypeError.
Proof. intros Hu. unfold baseData. now rewrite get_unusable. Qed.

(** ** [processedSightings] *)

Lemma processedSightings_frame (speciesPhotos : value)
  (grouped : list (R * R * list Sighting.t)) (clusters : list Location.t) :
  processedSightings speciesPhotos grouped = Ok clusters ->
  map Location.withoutPhotos clusters
  = map Location.withoutPhotos (plainClusters grouped).
Proof.
  unfold processedSightings, plainClusters. intros H. rewrite map_map.
  eapply mapM_Ok_inv; [| exact H].
  intros [[lat lng] sightings] c _ Hc.
  destruct (mapM _ (Object_entries _)) as [birds |] eqn:Eb; simpl in Hc; [| discriminate].
  inversion Hc; subst c. unfold Location.withoutPhotos; simpl. f_equal.
  unfold plainBirds. rewrite map_map. eapply mapM_Ok_inv; [| exact Eb].
  intros [name speciesSightings] b _ Hb. simpl in *. now apply baseData_frame in Hb.
Qed.

Lemma processedSightings_no_table (grouped : list (R * R * list Sighting.t)) :
  processedSightings (VObj []) grouped = Ok (plainClusters grouped).
Proof.
  unfold processedSightings, plainClusters. apply mapM_ok.
  intros [[lat lng] sightings] _.
  rewrite (mapM_ok _ (fun species : string * list Sighting.t => plainBird (snd species))).
  - reflexivity.
  - intros species _. apply baseData_no_table.
Qed.

Lemma processedSightings_defined (speciesPhotos : value)
  (grouped : list (R * R * list Sighting.t)) :
  ~ unusable speciesPhotos ->
  exists clusters, processedSightings speciesPhotos grouped = Ok clusters.
Proof.
  intros Hu. unfold processedSightings. apply mapM_defined.
  intros [[lat lng] sightings] _.
  destruct (mapM_defined (fun species : string * list Sighting.t =>
                            baseData speciesPhotos (snd species))
              (Object_entries (birdsBySpecies sightings))) as [birds Hb].
  - intros species _. now apply baseData_defined.
  - rewrite Hb. simpl. eexists; reflexivity.
Qed.

Lemma birdsBySpecies_entries_nonempty (s : Sighting.t) (rest : list Sighting.t) :
  Object_entries (birdsBySpecies (s :: rest)) <> [].
Proof.
  destruct (groupBy_covers string_dec Sighting.comName (s :: rest) s) as [g Hg];
    [now left |].
  apply Object_entries_In in Hg. intros E. fold (birdsBySpecies (s :: rest)) in Hg.
  now rewrite E in Hg.
Qed.

Lemma groupedByLocation_nonempty (valid : list Sighting.t) :
  valid <> [] ->
  exists lat lng s rest others,
    groupedByLocation valid = (lat, lng, s :: rest) :: others.
Proof.
  intros Hv. destruct valid as [| x valid]; [congruence |].
  destruct (groupBy_covers locationKey_eq_dec locationKey (x :: valid) x) as [g Hg];
    [now left |].
  fold (groupedByLocation (x :: valid)) in Hg.
  destruct (groupedByLocation (x :: valid)) as [| [[lat lng] g0] others] eqn:E;
    [contradiction |].
  assert (Hin : In (lat, lng, g0) (groupedByLocation (x :: valid))) by (rewrite E; now left).
  apply groupBy_In in Hin. destruct Hin as [_ Hne].
  destruct g0 as [| s rest]; [congruence |].
  now exists lat, lng, s, rest, others.
Qed.

(** With an [undefined] or [null] photo table the callback throws on the
    first species of the first location. *)
Lemma processedSightings_throws (speciesPhotos : value) (valid : list Sighting.t) :
  unusable speciesPhotos -> valid <> [] ->
  processedSightings speciesPhotos (groupedByLocation valid) = Throw TypeError.
Proof.
  intros Hu Hv.
  destruct (groupedByLocation_nonempty valid Hv) as [lat [lng [s [rest [others E]]]]].
  rewrite E. unfold processedSightings. apply mapM_throw_head.
  destruct (Object_entries (birdsBySpecies (s :: rest))) as [| species more] eqn:Ee.
  - exfalso. now apply (birdsBySpecies_entries_nonempty s rest).
  - rewrite (mapM_throw_head _ species more TypeError); [reflexivity |].
    now apply baseData_throws.
Qed.

Lemma normalize_plain (data : list Sighting.t) :
  normalize data = plainClusters (groupedByLocation (validSightings data)).
Proof. unfold normalize. now rewrite processedSightings_no_table. Qed.

(** ** The Observation Normalizer *)

Section ListFacts.

Context {A B : Type}.

(** In a list without two elements of the same [f], the elements of one
    given [f] are a single one. *)
Lemma filter_unique (f : A -> B) (p : A -> bool) (l : list A) (x : A) :
  NoDup (map f l) -> In x l ->
  (forall y, In y l -> (p y = true <-> f y = f x)) ->
  filter p l = [x].
Proof.
  induction l as [| a l IH]; simpl; intros Hnd Hin Hp; [contradiction |].
  inversion Hnd as [| ? ? Ha Hl]; subst.
  assert (Hrest : forall y, In y l -> f y = f x -> In (f x) (map f l)).
  { intros y Hy E. rewrite <- E. now apply in_map. }
  destruct Hin as [-> | Hin].
  - assert (E : p x = true) by (apply Hp; [now left | reflexivity]).
    rewrite E. f_equal.
    assert (Hnone : forall y, In y l -> p y = false).
    { intros y Hy. destruct (p y) eqn:Ey; [| reflexivity].
      apply Hp in Ey; [| now right]. exfalso. apply Ha. now apply (Hrest y). }
    clear - Hnone. induction l as [| b l IH]; simpl; [reflexivity |].
    rewrite (Hnone b) by now left. apply IH. intros y Hy. apply Hnone. now right.
  - destruct (p a) eqn:Ea.
    + apply Hp in Ea; [| now left]. exfalso. apply Ha. rewrite Ea. now apply in_map.
    + apply IH; [assumption | assumption |]. intros y Hy. apply Hp. now right.
Qed.

Lemma filter_two (p : A -> bool) (l1 l2 l3 : list A) (x y : A) :
  p x = true -> p y = true ->
  filter p (l1 ++ x :: l2 ++ y :: l3)
  = filter p l1 ++ x :: filter p l2 ++ y :: filter p l3.
Proof.
  intros Hx Hy. rewrite filter_app. simpl. rewrite Hx, filter_app. simpl.
  now rewrite Hy.
Qed.

Lemma filter_filter (p q : A -> bool) (l : list A) :
  filter p (filter q l) = filter (fun x => q x && p x) l.
Proof.
  induction l as [| a l IH]; simpl; [reflexivity |].
  destruct (q a); simpl; [destruct (p a) |]; now rewrite IH.
Qed.

End ListFacts.

Lemma Object_entries_singleton {A : Type} (e : string * A) : Object_entries [e] = [e].
Proof.
  destruct e as [k v]. unfold Object_entries. simpl.
  destruct (arrayIndex k); reflexivity.
Qed.

Lemma mergedSightings_filter (data : list Sighting.t) (key : R * R) (name : string) :
  mergedSightings data key name = filter (merges key name) data.
Proof.
  unfold mergedSightings, validSightings, merges. now rewrite !filter_filter.
Qed.

Lemma mergedSightings_In (data : list Sighting.t) (key : R * R) (name : string)
  (s : Sighting.t) :
  In s (mergedSightings data key name) <->
  In s data /\ Sighting.obsValid s = true /\ locationKey s = key /\ Sighting.comName s = name.
Proof.
  rewrite mergedSightings_filter, filter_In. unfold merges.
  rewrite !andb_true_iff, !hasKey_true. tauto.
Qed.

Lemma normalize_In (data : list Sighting.t) (c : Location.t) :
  In c (normalize data) <->
  exists sightings,
    In (clusterKey c, sightings) (groupedByLocation (validSightings data))
    /\ Location.birds c = plainBirds sightings.
Proof.
  rewrite normalize_plain. unfold plainClusters. rewrite in_map_iff. split.
  - intros [[[lat lng] sightings] [<- Hin]]. now exists sightings.
  - intros [sightings [Hin Hb]]. exists (clusterKey c, sightings).
    split; [| assumption]. destruct c as [lat lng birds]. simpl in *. now subst.
Qed.

Lemma plainBirds_In (sightings : list Sighting.t) (r : Bird.t) :
  In r (plainBirds sightings) <->
  exists name group, In (name, group) (birdsBySpecies sightings) /\ r = plainBird group.
Proof.
  unfold plainBirds. rewrite in_map_iff. split.
  - intros [[name group] [<- Hin]]. apply (proj1 (Object_entries_In _ _)) in Hin.
    now exists name, group.
  - intros [name [group [Hin ->]]]. exists (name, group).
    split; [reflexivity | now apply Object_entries_In].
Qed.

(** Every record of the output is [plainBird] of the observations it
    merges, and there is at least one of them. *)
Lemma normalize_bird (data : list Sighting.t) (c : Location.t) (r : Bird.t) :
  In c (normalize data) -> In r (Location.birds c) ->
  exists name,
    mergedSightings data (clusterKey c) name <> []
    /\ r = plainBird (mergedSightings data (clusterKey c) name).
Proof.
  intros Hc Hr. apply normalize_In in Hc. destruct Hc as [sightings [Hin Hb]].
  rewrite Hb in Hr. apply plainBirds_In in Hr. destruct Hr as [name [group [Hg ->]]].
  apply groupBy_In in Hin. destruct Hin as [-> _].
  apply groupBy_In in Hg. destruct Hg as [Hg Hne].
  exists name. unfold mergedSightings. now rewrite <- Hg.
Qed.

Lemma normalize_keys_NoDup (data : list Sighting.t) : NoDup (map clusterKey (normalize data)).
Proof.
  rewrite normalize_plain. unfold plainClusters. rewrite map_map.
  rewrite (map_ext _ fst).
  - apply groupBy_NoDup.
  - now intros [[lat lng] sightings].
Qed.

Lemma plainBird_comName (name : string) (group sightings : list Sighting.t) :
  In (name, group) (birdsBySpecies sightings) -> Bird.comName (plainBird group) = Some name.
Proof.
  intros Hin. apply groupBy_In in Hin. destruct Hin as [Hg Hne].
  destruct group as [| first rest]; [congruence |].
  assert (Hf : In first (filter (hasKey string_dec Sighting.comName name) sightings))
    by (rewrite <- Hg; now left).
  apply filter_In in Hf. destruct Hf as [_ Hf]. apply hasKey_true in Hf.
  unfold Bird.comName, plainBird. simpl. now rewrite Hf.
Qed.

Lemma plainBirds_names_NoDup (sightings : list Sighting.t) :
  NoDup (map Bird.comName (plainBirds sightings)).
Proof.
  unfold plainBirds. rewrite map_map.
  rewrite (map_ext_in _ (fun species : string * list Sighting.t => Some (fst species))).
  - rewrite <- (map_map fst Some). apply Finite.Injective_map_NoDup.
    + intros x y E. now inversion E.
    + apply Object_entries_NoDup, groupBy_NoDup.
  - intros [name group] Hin. apply (proj1 (Object_entries_In _ _)) in Hin. simpl.
    now apply (plainBird_comName _ _ sightings).
Qed.

Lemma validSightings_drop_invalid (pre post : list Sighting.t) (s : Sighting.t) :
  Sighting.obsValid s = false ->
  validSightings (pre ++ s :: post) = validSightings (pre ++ post).
Proof.
  intros Hs. unfold validSightings. rewrite !filter_app. simpl. now rewrite Hs.
Qed.

(** Two valid observations of one place and one common name, alone. *)
Lemma normalize_two (o1 o2 : Sighting.t) :
  Sighting.obsValid o1 = true -> Sighting.obsValid o2 = true ->
  locationKey o1 = locationKey o2 -> Sighting.comName o1 = Sighting.comName o2 ->
  normalize [o1; o2]
  = [Location.mk (Sighting.lat o1) (Sighting.lng o1)
       [Bird.mk (Some o1) [Sighting.subId o1; Sighting.subId o2]
                (inheritedPhoto (speciesKey o1)) (inheritedPhoto (speciesKey o1))]].
Proof.
  intros Hv1 Hv2 Hk Hn. rewrite normalize_plain.
  unfold validSightings. cbn [filter]. rewrite Hv1, Hv2.
  unfold groupedByLocation, groupBy. cbn [fold_left groupBy_add].
  destruct (locationKey_eq_dec (locationKey o1) (locationKey o2)) as [_ | Hne];
    [| contradiction].
  unfold plainClusters, locationKey. cbn [map app]. do 2 f_equal.
  unfold plainBirds, birdsBySpecies, groupBy. cbn [fold_left groupBy_add].
  destruct (string_dec (Sighting.comName o1) (Sighting.comName o2)) as [_ | Hne];
    [| contradiction].
  cbn [app]. now rewrite Object_entries_singleton.
Qed.

(** C2. Two valid observations of one exact place and one common name,
    wherever they stand in the input, end up in exactly one record of
    exactly one cluster, whose [subIds] hold both submission ids in source
    order; an invalid observation can be deleted from the input without
    changing the output, and no record is built on it.  For the input that
    holds just the two and one invalid observation the output is spelled
    out, the photo properties as the empty table leaves them
    ([inheritedPhoto]): none, unless the species key names an inherited
    property. *)
Theorem normalize_merges_and_drops_invalid
  (l1 l2 l3 : list Sighting.t) (o1 o2 : Sighting.t) :
  Sighting.obsValid o1 = true -> Sighting.obsValid o2 = true ->
  locationKey o1 = locationKey o2 -> Sighting.comName o1 = Sighting.comName o2 ->
  let data := l1 ++ o1 :: l2 ++ o2 :: l3 in
  (exists c r,
      filter (clusterAt (locationKey o1)) (normalize data) = [c]
      /\ filter (birdNamed (Sighting.comName o1)) (Location.birds c) = [r]
      /\ exists before between after,
           Bird.subIds r
           = before ++ Sighting.subId o1 :: between ++ Sighting.subId o2 :: after)
  /\ (forall o3 pre post,
        Sighting.obsValid o3 = false -> data = pre ++ o3 :: post ->
        normalize data = normalize (pre ++ post)
        /\ forall c r, In c (normalize data) -> In r (Location.birds c) ->
                       Bird.base r <> Some o3)
  /\ (forall o3,
        Sighting.obsValid o3 = false ->
        normalize [o1; o2; o3]
        = [Location.mk (Sighting.lat o1) (Sighting.lng o1)
             [Bird.mk (Some o1) [Sighting.subId o1; Sighting.subId o2]
                      (inheritedPhoto (speciesKey o1))
                      (inheritedPhoto (speciesKey o1))]]
        /\ (inheritedKey (speciesKey o1) = false ->
            normalize [o1; o2; o3]
            = [Location.mk (Sighting.lat o1) (Sighting.lng o1)
                 [Bird.mk (Some o1) [Sighting.subId o1; Sighting.subId o2] None None]])).
Proof.
  intros Hv1 Hv2 Hk Hn data.
  split; [| split].
  - assert (Hin1 : In o1 (validSightings data)).
    { apply filter_In. split; [| assumption].
      unfold data. apply in_or_app. right. now left. }
    destruct (groupBy_covers locationKey_eq_dec locationKey _ _ Hin1) as [g Hg].
    fold (groupedByLocation (validSightings data)) in Hg.
    set (c := Location.mk (Sighting.lat o1) (Sighting.lng o1) (plainBirds g)).
    assert (Hc : In c (normalize data)) by (apply normalize_In; now exists g).
    pose proof (groupBy_In _ _ _ _ _ Hg) as [Hgeq _].
    assert (Hin2 : In o1 g).
    { rewrite Hgeq. apply filter_In. split; [assumption | now apply hasKey_true]. }
    destruct (groupBy_covers string_dec Sighting.comName _ _ Hin2) as [g' Hg'].
    fold (birdsBySpecies g) in Hg'.
    assert (Hr : In (plainBird g') (plainBirds g)).
    { apply plainBirds_In. now exists (Sighting.comName o1), g'. }
    exists c, (plainBird g'). split; [| split].
    + apply (filter_unique clusterKey); [apply normalize_keys_NoDup | assumption |].
      intros y _. unfold clusterAt.
      destruct (locationKey_eq_dec (clusterKey y) (locationKey o1)); split;
        intros H; (reflexivity || assumption || discriminate || contradiction).
    + apply (filter_unique Bird.comName);
        [apply plainBirds_names_NoDup | assumption |].
      intros y _. rewrite (plainBird_comName _ _ _ Hg'). unfold birdNamed.
      destruct (Bird.comName y) as [n |]; [| split; discriminate].
      destruct (string_dec n (Sighting.comName o1)); split; congruence.
    + pose proof (groupBy_In _ _ _ _ _ Hg') as [Hg'eq _].
      assert (E : g' = mergedSightings data (locationKey o1) (Sighting.comName o1)).
      { unfold mergedSightings. now rewrite <- Hgeq. }
      rewrite mergedSightings_filter in E. unfold data in E.
      rewrite filter_two in E.
      * exists (map Sighting.subId (filter (merges (locationKey o1) (Sighting.comName o1)) l1)),
               (map Sighting.subId (filter (merges (locationKey o1) (Sighting.comName o1)) l2)),
               (map Sighting.subId (filter (merges (locationKey o1) (Sighting.comName o1)) l3)).
        simpl. rewrite E, map_app. simpl. now rewrite map_app.
      * unfold merges. rewrite Hv1. simpl. apply andb_true_iff.
        split; now apply hasKey_true.
      * unfold merges. rewrite Hv2. simpl. apply andb_true_iff.
        split; now apply hasKey_true.
  - intros o3 pre post Hv3 Hd. split.
    + unfold normalize. now rewrite Hd, validSightings_drop_invalid.
    + intros c r Hc Hr Hb.
      destruct (normalize_bird _ _ _ Hc Hr) as [name [Hne Hreq]].
      rewrite Hreq in Hb. simpl in Hb.
      destruct (mergedSightings data (clusterKey c) name) as [| first rest] eqn:Em;
        [congruence |].
      simpl in Hb. inversion Hb; subst first.
      assert (Hin : In o3 (mergedSightings data (clusterKey c) name))
        by (rewrite Em; now left).
      apply mergedSightings_In in Hin. destruct Hin as [_ [Hv _]]. congruence.
  - intros o3 Hv3.
    assert (E : normalize [o1; o2; o3] = normalize [o1; o2]).
    { change [o1; o2; o3] with ([o1; o2] ++ o3 :: []).
      unfold normalize at 1. rewrite validSightings_drop_invalid by assumption.
      reflexivity. }
    rewrite E, normalize_two by assumption.
    split; [reflexivity |]. intros Hk'. unfold inheritedPhoto. now rewrite Hk'.
Qed.

Lemma normalize_merges_and_drops_invalid_witness :
  normalize [robin_jan1; robin_jan3; robin_invalid]
  = [Location.mk 36.97 (-122.03)
       [Bird.mk (Some robin_jan1) ["S100"%string; "S200"%string] None None]].
Proof.
  apply (proj2 (proj2 (normalize_merges_and_drops_invalid
                         [] [] [robin_invalid] robin_jan1 robin_jan3
                         eq_refl eq_refl eq_refl eq_refl)) robin_invalid eq_refl);
    reflexivity.
Defined.

Lemma normalize_robins (second : Sighting.t) :
  Sighting.obsValid second = true ->
  locationKey robin_jan1 = locationKey second ->
  Sighting.comName robin_jan1 = Sighting.comName second ->
  normalize [robin_jan1; second]
  = [Location.mk 36.97 (-122.03)
       [Bird.mk (Some robin_jan1) ["S100"%string; Sighting.subId second] None None]].
Proof. intros Hv Hk Hn. now rewrite normalize_two. Qed.

(** C6 (as the code has it). A record takes every copied field, the
    observation timestamp among them, from the first observation it merges:
    the first valid observation of the input with that place and common
    name. *)
Theorem record_takes_first_observation
  (data : list Sighting.t) (c : Location.t) (r : Bird.t) :
  In c (normalize data) -> In r (Location.birds c) ->
  exists name first rest,
    mergedSightings data (clusterKey c) name = first :: rest
    /\ Bird.base r = Some first
    /\ Bird.obsDt r = Some (Sighting.obsDt first).
Proof.
  intros Hc Hr.
  destruct (normalize_bird _ _ _ Hc Hr) as [name [Hne Hreq]].
  destruct (mergedSightings data (clusterKey c) name) as [| first rest] eqn:Em;
    [congruence |].
  exists name, first, rest. subst r. split; [exact Em | split; reflexivity].
Qed.

Lemma record_takes_first_observation_witness :
  exists name first rest,
    mergedSightings [robin_jan1; robin_jan3] (36.97, -122.03)%R name = first :: rest
    /\ Some robin_jan1 = Some first
    /\ Some "2025-01-01 08:00"%string = Some (Sighting.obsDt first).
Proof.
  apply (record_takes_first_observation [robin_jan1; robin_jan3]
           (Location.mk 36.97 (-122.03)
              [Bird.mk (Some robin_jan1) ["S100"%string; "S200"%string] None None])
           (Bird.mk (Some robin_jan1) ["S100"%string; "S200"%string] None None)).
  - rewrite (normalize_robins robin_jan3) by reflexivity. left. reflexivity.
  - left. reflexivity.
Defined.

(** C6 fails as stated: of two merged observations with the older one
    first in the input, the record carries the older timestamp. *)
Lemma record_timestamp_not_most_recent :
  exists c r t,
    In c (normalize [robin_jan1; robin_jan3])
    /\ In r (Location.birds c)
    /\ Bird.comName r = Some "American Robin"%string
    /\ Bird.obsDt r = Some t
    /\ ~ mostRecent t (mergedSightings [robin_jan1; robin_jan3] (clusterKey c)
                         "American Robin").
Proof.
  exists (Location.mk 36.97 (-122.03)
            [Bird.mk (Some robin_jan1) ["S100"%string; "S200"%string] None None]),
         (Bird.mk (Some robin_jan1) ["S100"%string; "S200"%string] None None),
         "2025-01-01 08:00"%string.
  split; [| split; [| split; [| split]]].
  - rewrite (normalize_robins robin_jan3) by reflexivity. now left.
  - now left.
  - reflexivity.
  - reflexivity.
  - intros Hmost.
    assert (Hin : In robin_jan3
                    (mergedSightings [robin_jan1; robin_jan3]
                       (36.97, -122.03)%R "American Robin")).
    { apply mergedSightings_In. repeat split. right. now left. }
    apply Hmost in Hin. vm_compute in Hin. discriminate.
Qed.

(** C7 (as the code has it). The [subIds] of a record are the submission
    ids of the observations it merges, one for each and in source order:
    never empty, and free of duplicates when those observations carry
    distinct ids. *)
Theorem subIds_nonempty_in_source_order
  (data : list Sighting.t) (c : Location.t) (r : Bird.t) :
  In c (normalize data) -> In r (Location.birds c) ->
  Bird.subIds r <> []
  /\ exists name,
       Bird.comName r = Some name
       /\ Bird.subIds r = map Sighting.subId (mergedSightings data (clusterKey c) name)
       /\ (NoDup (map Sighting.subId (mergedSightings data (clusterKey c) name)) ->
           NoDup (Bird.subIds r)).
Proof.
  intros Hc Hr.
  destruct (normalize_bird _ _ _ Hc Hr) as [name [Hne Hreq]].
  destruct (mergedSightings data (clusterKey c) name) as [| first rest] eqn:Em;
    [congruence |].
  assert (Hfirst : In first (mergedSightings data (clusterKey c) name))
    by (rewrite Em; now left).
  apply mergedSightings_In in Hfirst. destruct Hfirst as [_ [_ [_ Hname]]].
  subst r. split; [discriminate |].
  exists name. rewrite Em. unfold Bird.comName. simpl. rewrite Hname.
  split; [reflexivity | split; [reflexivity | intros H; exact H]].
Qed.

Lemma subIds_nonempty_in_source_order_witness :
  ["S100"%string; "S200"%string] <> []
  /\ exists name,
       Some "American Robin"%string = Some name
       /\ ["S100"%string; "S200"%string]
          = map Sighting.subId
              (mergedSightings [robin_jan1; robin_jan3] (36.97, -122.03)%R name)
       /\ (NoDup (map Sighting.subId
                    (mergedSightings [robin_jan1; robin_jan3] (36.97, -122.03)%R name)) ->
           NoDup ["S100"%string; "S200"%string]).
Proof.
  apply (subIds_nonempty_in_source_order [robin_jan1; robin_jan3]
           (Location.mk 36.97 (-122.03)
              [Bird.mk (Some robin_jan1) ["S100"%string; "S200"%string] None None])
           (Bird.mk (Some robin_jan1) ["S100"%string; "S200"%string] None None)).
  - rewrite (normalize_robins robin_jan3) by reflexivity. left. reflexivity.
  - left. reflexivity.
Defined.

(** C7 fails as stated: two records of one checklist for one species and
    place put the same submission id twice into [subIds]. *)
Lemma subIds_may_repeat :
  exists c r,
    In c (normalize [robin_jan1; robin_again])
    /\ In r (Location.birds c)
    /\ ~ NoDup (Bird.subIds r).
Proof.
  exists (Location.mk 36.97 (-122.03)
            [Bird.mk (Some robin_jan1) ["S100"%string; "S100"%string] None None]),
         (Bird.mk (Some robin_jan1) ["S100"%string; "S100"%string] None None).
  split; [| split].
  - rewrite (normalize_robins robin_again) by reflexivity. now left.
  - now left.
  - simpl. intros Hnd. inversion Hnd as [| ? ? Hnin _]. apply Hnin. now left.
Qed.

(** ** The processing as a whole *)

Lemma fetchSpeciesPhotos_log (photoResponse : Response value) :
  ~ surfacedError (snd (fetchSpeciesPhotos photoResponse)).
Proof.
  unfold surfacedError, fetchSpeciesPhotos.
  destruct photoResponse as [| [|] [photoData |]]; simpl;
    try destruct (get photoData "species"); simpl;
    intros H; repeat (destruct H as [H | H]; [discriminate |]); exact H.
Qed.

Lemma processData_fst (speciesLookup : list string -> Response value)
  (data : list Sighting.t) :
  fst (processData speciesLookup data)
  = processedSightings
      (fst (fetchSpeciesPhotos (speciesLookup (uniqueSpecies (validSightings data)))))
      (groupedByLocation (validSightings data)).
Proof. unfold processData. now destruct (fetchSpeciesPhotos _). Qed.

Lemma processData_snd (speciesLookup : list string -> Response value)
  (data : list Sighting.t) :
  snd (processData speciesLookup data)
  = snd (fetchSpeciesPhotos (speciesLookup (uniqueSpecies (validSightings data)))).
Proof. unfold processData. now destruct (fetchSpeciesPhotos _). Qed.

Lemma processData_log (speciesLookup : list string -> Response value)
  (data : list Sighting.t) :
  ~ surfacedError (snd (processData speciesLookup data)).
Proof. rewrite processData_snd. apply fetchSpeciesPhotos_log. Qed.

(** Whatever the photo service answered, clusters that come out are those
    of the normalizer, photo properties apart. *)
Lemma processData_frame (speciesLookup : list string -> Response value)
  (data : list Sighting.t) (clusters : list Location.t) :
  fst (processData speciesLookup data) = Ok clusters ->
  map Location.withoutPhotos clusters = map Location.withoutPhotos (normalize data).
Proof.
  rewrite processData_fst, normalize_plain. apply processedSightings_frame.
Qed.

(** So every record that a run publishes is a record of the normalizer
    with, at most, the two photo properties added. *)
Lemma processData_records (speciesLookup : list string -> Response value)
  (data : list Sighting.t) (clusters : list Location.t) (c : Location.t) (r : Bird.t) :
  fst (processData speciesLookup data) = Ok clusters ->
  In c clusters -> In r (Location.birds c) ->
  In (Location.withoutPhotos c) (map Location.withoutPhotos (normalize data))
  /\ In (Bird.withoutPhotos r) (Location.birds (Location.withoutPhotos c))
  /\ clusterKey (Location.withoutPhotos c) = clusterKey c
  /\ Bird.base (Bird.withoutPhotos r) = Bird.base r
  /\ Bird.subIds (Bird.withoutPhotos r) = Bird.subIds r.
Proof.
  intros Hrun Hc Hr. apply processData_frame in Hrun.
  split; [| split; [| repeat split]].
  - rewrite <- Hrun. now apply in_map.
  - simpl. now apply in_map.
Qed.

(** Without a species key that names an inherited property, the clusters
    of the normalizer carry no photo property. *)
Lemma normalize_withoutPhotos (data : list Sighting.t) :
  (forall s, In s (validSightings data) -> inheritedKey (speciesKey s) = false) ->
  map Location.withoutPhotos (normalize data) = normalize data.
Proof.
  intros Hkeys. rewrite normalize_plain. unfold plainClusters. rewrite map_map.
  rewrite <- (map_id (map _ _)) at 1. rewrite map_map. apply map_ext_in.
  intros [[lat lng] sightings] Hin. unfold Location.withoutPhotos. simpl. f_equal.
  apply groupBy_In in Hin. destruct Hin as [Hs _].
  unfold plainBirds. rewrite map_map. apply map_ext_in.
  intros [name g] Hg. simpl. apply (proj1 (Object_entries_In _ _)) in Hg.
  apply groupBy_In in Hg. destruct Hg as [Hg Hne].
  destruct g as [| first rest]; [congruence |].
  assert (Hf : In first (filter (hasKey string_dec Sighting.comName name) sightings))
    by (rewrite <- Hg; now left).
  apply filter_In in Hf. destruct Hf as [Hf _]. rewrite Hs in Hf.
  apply filter_In in Hf. destruct Hf as [Hf _].
  unfold Bird.withoutPhotos, plainBird, groupKey, inheritedPhoto. simpl.
  now rewrite (Hkeys first Hf).
Qed.

(** C9. Running the processing again on the same raw list gives the same
    clusters: two runs that the same photo answer accompanies agree in
    everything, and two runs with different photo answers agree in all but
    the photo properties, with each other and with the clusters of
    [normalize]; these carry no photo property themselves unless a species
    key names an inherited property. *)
Theorem normalizer_rerun_same_clusters (data : list Sighting.t) :
  (forall lookup1 lookup2,
     lookup1 (uniqueSpecies (validSightings data))
     = lookup2 (uniqueSpecies (validSightings data)) ->
     processData lookup1 data = processData lookup2 data)
  /\ (forall lookup1 lookup2 clusters1 clusters2,
        fst (processData lookup1 data) = Ok clusters1 ->
        fst (processData lookup2 data) = Ok clusters2 ->
        map Location.withoutPhotos clusters1 = map Location.withoutPhotos (normalize data)
        /\ map Location.withoutPhotos clusters2
           = map Location.withoutPhotos (normalize data)
        /\ Permutation (map Location.withoutPhotos clusters1)
                       (map Location.withoutPhotos clusters2)
        /\ ((forall s, In s (validSightings data) -> inheritedKey (speciesKey s) = false) ->
            map Location.withoutPhotos clusters1 = normalize data
            /\ map Location.withoutPhotos clusters2 = normalize data))
  /\ fst (processData (fun _ => rejected) data) = Ok (normalize data).
Proof.
  split; [| split].
  - intros lookup1 lookup2 H. unfold processData. now rewrite H.
  - intros lookup1 lookup2 clusters1 clusters2 H1 H2.
    apply processData_frame in H1. apply processData_frame in H2.
    split; [assumption | split; [assumption | split]].
    + rewrite H1, H2. apply Permutation_refl.
    + intros Hkeys. rewrite H1, H2, normalize_withoutPhotos by assumption. now split.
  - rewrite processData_fst. simpl.
    now rewrite processedSightings_no_table, normalize_plain.
Qed.

Lemma normalizer_rerun_same_clusters_witness :
  fst (processData (fun _ => rejected) [robin_jan1; robin_jan3])
  = Ok (normalize [robin_jan1; robin_jan3]).
Proof.
  apply (proj2 (proj2 (normalizer_rerun_same_clusters [robin_jan1; robin_jan3]))).
Defined.

(** C10 at the failing input. With at least one valid observation, a photo
    lookup that fails by rejection yields the clusters of the normalizer,
    while one that fails by answering [{}] yields none: the callback throws. *)
Theorem clusters_lost_when_lookup_has_no_species (data : list Sighting.t) :
  validSightings data <> [] ->
  fst (processData (fun _ => rejected) data) = Ok (normalize data)
  /\ fst (processData (fun _ => response true (Some (VObj []))) data) = Throw TypeError.
Proof.
  intros Hv. split.
  - rewrite processData_fst. simpl.
    now rewrite processedSightings_no_table, normalize_plain.
  - rewrite processData_fst. simpl.
    apply processedSightings_throws; [now left | assumption].
Qed.

Lemma clusters_lost_when_lookup_has_no_species_witness :
  fst (processData (fun _ => rejected) [robin_jan1]) = Ok (normalize [robin_jan1])
  /\ fst (processData (fun _ => response true (Some (VObj []))) [robin_jan1])
     = Throw TypeError.
Proof.
  apply (clusters_lost_when_lookup_has_no_species [robin_jan1]). discriminate.
Defined.

(** ** The fetch cycle of [BirdMap.jsx] *)

Section BirdMapCycle.

Import BirdMap.

Variable env : Env.
Variable st : State.

Lemma shouldFetch_skipFetch : shouldFetch st = true -> skipFetch st = false.
Proof. unfold shouldFetch. now destruct (skipFetch st). Qed.

Lemma fetchBirdData_skipped :
  skipFetch st = true -> fetchBirdData env st = (st, [console_log "Skipping fetch"]).
Proof. intros H. unfold fetchBirdData. now rewrite H. Qed.

Lemma fetchBirdData_failed (e : error) (log : list Event) :
  skipFetch st = false -> tryFetch env st = (Throw e, log) ->
  fetchBirdData env st
  = (setLoading false (setLoading true st),
     log ++ [console_error "Error fetching bird data:";
             alert "Error fetching bird sightings"]).
Proof.
  intros Hs Ht. unfold fetchBirdData. rewrite Hs.
  change (tryFetch env (setLoading true st)) with (tryFetch env st).
  now rewrite Ht.
Qed.

Lemma fetchBirdData_succeeded (processed : list Location.t) (log : list Event) :
  skipFetch st = false -> tryFetch env st = (Ok processed, log) ->
  fetchBirdData env st
  = (mkState (mapCenter st) (Some (roundedCenter st))
       (Some (Params.mk (daysBack st) (sightingType st)))
       processed false (mapRef st) (sightingType st) (daysBack st),
     log).
Proof.
  intros Hs Ht. unfold fetchBirdData. rewrite Hs.
  change (tryFetch env (setLoading true st)) with (tryFetch env st).
  now rewrite Ht.
Qed.

Lemma tryFetch_primaryFailed :
  primaryFailed (birds env (query st)) ->
  exists e, tryFetch env st = (Throw e, []).
Proof.
  unfold tryFetch. destruct (birds env (query st)) as [| ok body]; simpl.
  - intros _. now exists NetworkError.
  - intros ->. now exists (Error "Failed to fetch bird sightings").
Qed.

Lemma tryFetch_Ok (processed : list Location.t) (log : list Event) :
  tryFetch env st = (Ok processed, log) ->
  exists data,
    birds env (query st) = response true (Some data)
    /\ processData (speciesLookup env) data = (Ok processed, log).
Proof.
  unfold tryFetch. destruct (birds env (query st)) as [| [|] [data |]];
    try discriminate.
  intros H. now exists data.
Qed.

End BirdMapCycle.

(** ** The fetch cycle of [part_000] *)

Section Part000Cycle.

Import Part000.

Variable env : Env.
Variable st : State.

Lemma part000_fetchBirdData_failed (e : error) (log : list Event) :
  tryFetch env st = (Throw e, log) ->
  fetchBirdData env st
  = (mkState (mapCenter st) (Some (roundedCenter st)) (birdSightings st)
       (showUpdateButton st) false,
     log ++ [console_error "Error fetching bird data:";
             alert "Error fetching bird sightings"]).
Proof.
  intros Ht. unfold fetchBirdData.
  change (tryFetch env (setLastQueriedPosition _ (setLoading true st)))
    with (tryFetch env st).
  now rewrite Ht.
Qed.

Lemma part000_fetchBirdData_succeeded (processed : list Location.t) (log : list Event) :
  tryFetch env st = (Ok processed, log) ->
  fetchBirdData env st
  = (mkState (mapCenter st) (Some (roundedCenter st)) processed
       (showUpdateButton st) false,
     log).
Proof.
  intros Ht. unfold fetchBirdData.
  change (tryFetch env (setLastQueriedPosition _ (setLoading true st)))
    with (tryFetch env st).
  now rewrite Ht.
Qed.

Lemma part000_tryFetch_primaryFailed :
  primaryFailed (birds env (roundedCenter st)) ->
  exists e, tryFetch env st = (Throw e, []).
Proof.
  unfold tryFetch. destruct (birds env (roundedCenter st)) as [| ok body]; simpl.
  - intros _. now exists NetworkError.
  - intros ->. now exists (Error "Failed to fetch bird sightings").
Qed.

End Part000Cycle.

(** C4 (as the code has it). When the primary query fails, both components
    leave the published clusters as they were and raise the error notice.
    [BirdMap.jsx] leaves the last fetch location and parameters as they were
    too, and whenever it does write them the query and the processing have
    completed, the new clusters are published and no error is raised.
    [part_000] has written the last queried position, the rounded map
    centre, before the request went out, and it stays written. *)
Theorem primary_failure_state :
  (forall env st,
     primaryFailed (BirdMap.birds env (BirdMap.query st)) ->
     BirdMap.birdSightings (fst (BirdMap.fetchBirdData env st)) = BirdMap.birdSightings st
     /\ BirdMap.lastFetchLocation (fst (BirdMap.fetchBirdData env st))
        = BirdMap.lastFetchLocation st
     /\ BirdMap.lastFetchParams (fst (BirdMap.fetchBirdData env st))
        = BirdMap.lastFetchParams st
     /\ (BirdMap.shouldFetch st = true ->
         surfacedError (snd (BirdMap.fetchBirdData env st))))
  /\ (forall env st,
        (BirdMap.lastFetchLocation (fst (BirdMap.fetchBirdData env st))
         = BirdMap.lastFetchLocation st
         /\ BirdMap.lastFetchParams (fst (BirdMap.fetchBirdData env st))
            = BirdMap.lastFetchParams st)
        \/ (exists data processed,
              BirdMap.birds env (BirdMap.query st) = response true (Some data)
              /\ fst (processData (BirdMap.speciesLookup env) data) = Ok processed
              /\ BirdMap.birdSightings (fst (BirdMap.fetchBirdData env st)) = processed
              /\ ~ surfacedError (snd (BirdMap.fetchBirdData env st))))
  /\ (forall env st,
        primaryFailed (Part000.birds env (Part000.roundedCenter st)) ->
        Part000.birdSightings (fst (Part000.fetchBirdData env st))
        = Part000.birdSightings st
        /\ surfacedError (snd (Part000.fetchBirdData env st))
        /\ Part000.lastQueriedPosition (fst (Part000.fetchBirdData env st))
           = Some (Part000.roundedCenter st)).
Proof.
  split; [| split].
  - intros env st Hfail.
    destruct (BirdMap.skipFetch st) eqn:Hs.
    + rewrite fetchBirdData_skipped by assumption. simpl.
      repeat split. unfold BirdMap.shouldFetch. rewrite Hs. discriminate.
    + destruct (tryFetch_primaryFailed env st Hfail) as [e He].
      rewrite (fetchBirdData_failed env st _ _ Hs He). simpl.
      repeat split. intros _. unfold surfacedError. simpl. tauto.
  - intros env st.
    destruct (BirdMap.skipFetch st) eqn:Hs.
    + left. rewrite fetchBirdData_skipped by assumption. now split.
    + destruct (BirdMap.tryFetch env st) as [[processed | e] log] eqn:Ht.
      * right. destruct (tryFetch_Ok env st _ _ Ht) as [data [Hd Hp]].
        exists data, processed.
        rewrite (fetchBirdData_succeeded env st _ _ Hs Ht). simpl.
        split; [assumption |]. split; [now rewrite Hp |]. split; [reflexivity |].
        replace log with (snd (processData (BirdMap.speciesLookup env) data))
          by now rewrite Hp.
        apply processData_log.
      * left. rewrite (fetchBirdData_failed env st _ _ Hs Ht). now split.
  - intros env st Hfail.
    destruct (part000_tryFetch_primaryFailed env st Hfail) as [e He].
    rewrite (part000_fetchBirdData_failed env st _ _ He). simpl.
    repeat split. unfold surfacedError. simpl. tauto.
Qed.

Lemma primary_failure_state_witness :
  BirdMap.birdSightings (fst (BirdMap.fetchBirdData BirdMap.offline BirdMap.initial)) = []
  /\ BirdMap.lastFetchLocation (fst (BirdMap.fetchBirdData BirdMap.offline BirdMap.initial))
     = None
  /\ BirdMap.lastFetchParams (fst (BirdMap.fetchBirdData BirdMap.offline BirdMap.initial))
     = None
  /\ (BirdMap.shouldFetch BirdMap.initial = true ->
      surfacedError (snd (BirdMap.fetchBirdData BirdMap.offline BirdMap.initial))).
Proof.
  apply (proj1 primary_failure_state BirdMap.offline BirdMap.initial). exact I.
Defined.

(** C4 fails as stated on [part_000]: with the services unreachable, the
    cycle that starts from the initial state (no queried position yet) ends
    with a queried position. *)
Lemma last_queried_position_written_on_failure :
  primaryFailed (Part000.birds Part000.offline (Part000.roundedCenter Part000.initial))
  /\ Part000.lastQueriedPosition Part000.initial = None
  /\ Part000.lastQueriedPosition
       (fst (Part000.fetchBirdData Part000.offline Part000.initial))
     = Some (Part000.roundedCenter Part000.initial)
  /\ Part000.lastQueriedPosition
       (fst (Part000.fetchBirdData Part000.offline Part000.initial))
     <> Part000.lastQueriedPosition Part000.initial.
Proof.
  split; [exact I |]. split; [reflexivity |]. split; [reflexivity |].
  simpl. discriminate.
Qed.

(** C5 at the failing input. When the photo service answers 200 with a body
    whose [species] is missing or [null], and eBird had at least one valid
    observation, the cycle of [BirdMap.jsx] ends in its outer [catch]: the
    error notice is raised, no cluster is published and the last fetch is
    not recorded. *)
Theorem lookup_without_species_fails_cycle
  (env : BirdMap.Env) (st : BirdMap.State) (data : list Sighting.t) (body : value) :
  BirdMap.shouldFetch st = true ->
  BirdMap.birds env (BirdMap.query st) = response true (Some data) ->
  validSightings data <> [] ->
  BirdMap.speciesLookup env (uniqueSpecies (validSightings data))
  = response true (Some body) ->
  (exists species, get body "species" = Ok species /\ unusable species) ->
  surfacedError (snd (BirdMap.fetchBirdData env st))
  /\ BirdMap.birdSightings (fst (BirdMap.fetchBirdData env st)) = BirdMap.birdSightings st
  /\ BirdMap.lastFetchLocation (fst (BirdMap.fetchBirdData env st))
     = BirdMap.lastFetchLocation st
  /\ BirdMap.lastFetchParams (fst (BirdMap.fetchBirdData env st))
     = BirdMap.lastFetchParams st.
Proof.
  intros Hgate Hbirds Hvalid Hlookup [species [Hget Hbad]].
  pose proof (shouldFetch_skipFetch st Hgate) as Hs.
  assert (Ht : BirdMap.tryFetch env st = (Throw TypeError, [])).
  { unfold BirdMap.tryFetch. rewrite Hbirds.
    unfold processData. rewrite Hlookup. unfold fetchSpeciesPhotos. rewrite Hget.
    now rewrite processedSightings_throws. }
  rewrite (fetchBirdData_failed env st _ _ Hs Ht). simpl.
  repeat split. unfold surfacedError. simpl. tauto.
Qed.

Lemma lookup_without_species_fails_cycle_witness :
  surfacedError (snd (BirdMap.fetchBirdData BirdMap.lookupWithoutSpecies BirdMap.initial))
  /\ BirdMap.birdSightings
       (fst (BirdMap.fetchBirdData BirdMap.lookupWithoutSpecies BirdMap.initial)) = []
  /\ BirdMap.lastFetchLocation
       (fst (BirdMap.fetchBirdData BirdMap.lookupWithoutSpecies BirdMap.initial)) = None
  /\ BirdMap.lastFetchParams
       (fst (BirdMap.fetchBirdData BirdMap.lookupWithoutSpecies BirdMap.initial)) = None.
Proof.
  apply (lookup_without_species_fails_cycle BirdMap.lookupWithoutSpecies BirdMap.initial
           [robin_jan1] (VObj [])).
  - reflexivity.
  - reflexivity.
  - discriminate.
  - reflexivity.
  - exists VUndefined. split; [reflexivity | now left].
Defined.

(** ** Further properties of the cycle *)

(** A photo lookup that is rejected, answers with a status that is not
    [ok], or has a body that is no JSON or is [null], is absorbed: the cycle
    of [BirdMap.jsx] publishes the clusters that the empty photo table
    gives, records the fetch and raises no error.  A record of these
    clusters has no photo property, unless the species key of its first
    observation names a property that every object inherits ([__proto__] or
    a legacy accessor): the lookup in the empty table then finds the
    inherited object, and the record gets both properties, [undefined]. *)
Theorem lookup_failure_absorbed
  (env : BirdMap.Env) (st : BirdMap.State) (data : list Sighting.t) :
  BirdMap.shouldFetch st = true ->
  BirdMap.birds env (BirdMap.query st) = response true (Some data) ->
  lookupFailed (BirdMap.speciesLookup env (uniqueSpecies (validSightings data))) ->
  BirdMap.birdSightings (fst (BirdMap.fetchBirdData env st)) = normalize data
  /\ (forall c r, In c (normalize data) -> In r (Location.birds c) ->
        exists first,
          Bird.base r = Some first
          /\ In first (validSightings data)
          /\ Bird.thumbnailUrl r = inheritedPhoto (speciesKey first)
          /\ Bird.fullPhotoUrl r = inheritedPhoto (speciesKey first)
          /\ (inheritedKey (speciesKey first) = false ->
              Bird.thumbnailUrl r = None /\ Bird.fullPhotoUrl r = None)
          /\ (inheritedKey (speciesKey first) = true ->
              Bird.thumbnailUrl r = Some VUndefined
              /\ Bird.fullPhotoUrl r = Some VUndefined))
  /\ BirdMap.lastFetchLocation (fst (BirdMap.fetchBirdData env st))
     = Some (BirdMap.roundedCenter st)
  /\ BirdMap.lastFetchParams (fst (BirdMap.fetchBirdData env st))
     = Some (BirdMap.Params.mk (BirdMap.daysBack st) (BirdMap.sightingType st))
  /\ ~ surfacedError (snd (BirdMap.fetchBirdData env st)).
Proof.
  intros Hgate Hbirds Hfail.
  pose proof (shouldFetch_skipFetch st Hgate) as Hs.
  assert (Hp : fst (fetchSpeciesPhotos
                      (BirdMap.speciesLookup env (uniqueSpecies (validSightings data))))
               = VObj []).
  { destruct (BirdMap.speciesLookup env _) as [| [|] [body |]]; simpl in *;
      try reflexivity. now subst body. }
  destruct (BirdMap.tryFetch env st) as [outcome log] eqn:Ht.
  assert (Ho : outcome = Ok (normalize data)
               /\ log = snd (processData (BirdMap.speciesLookup env) data)).
  { unfold BirdMap.tryFetch in Ht. rewrite Hbirds in Ht.
    split.
    - replace outcome with (fst (processData (BirdMap.speciesLookup env) data))
        by now rewrite Ht.
      rewrite processData_fst, Hp, processedSightings_no_table.
      now rewrite normalize_plain.
    - now rewrite Ht. }
  destruct Ho as [-> ->].
  rewrite (fetchBirdData_succeeded env st _ _ Hs Ht). simpl.
  split; [reflexivity |]. split; [| split; [reflexivity | split; [reflexivity |]]].
  - intros c r Hc Hr. destruct (normalize_bird _ _ _ Hc Hr) as [name [Hne ->]].
    destruct (mergedSightings data (clusterKey c) name) as [| first rest] eqn:Em;
      [congruence |].
    assert (Hin : In first (mergedSightings data (clusterKey c) name))
      by (rewrite Em; now left).
    apply mergedSightings_In in Hin.
    exists first. unfold plainBird, groupKey, inheritedPhoto. simpl.
    split; [reflexivity |]. split; [apply filter_In; tauto |].
    split; [reflexivity |]. split; [reflexivity |].
    split; intros ->; now split.
  - apply processData_log.
Qed.

Lemma lookup_failure_absorbed_witness :
  BirdMap.birdSightings
    (fst (BirdMap.fetchBirdData
            (BirdMap.mkEnv (fun _ => response true (Some [robin_jan1; robin_jan3]))
                           (fun _ => rejected))
            BirdMap.initial))
  = normalize [robin_jan1; robin_jan3].
Proof.
  apply (lookup_failure_absorbed
           (BirdMap.mkEnv (fun _ => response true (Some [robin_jan1; robin_jan3]))
                          (fun _ => rejected))
           BirdMap.initial [robin_jan1; robin_jan3]).
  - reflexivity.
  - reflexivity.
  - exact I.
Defined.

(** Running the cycle once more against the same answers of the two
    services leaves the published clusters as the first run left them, in
    either component. *)
Theorem rerun_publishes_same_clusters :
  (forall env st,
     BirdMap.birdSightings
       (fst (BirdMap.fetchBirdData env (fst (BirdMap.fetchBirdData env st))))
     = BirdMap.birdSightings (fst (BirdMap.fetchBirdData env st)))
  /\ (forall env st,
        Part000.birdSightings
          (fst (Part000.fetchBirdData env (fst (Part000.fetchBirdData env st))))
        = Part000.birdSightings (fst (Part000.fetchBirdData env st))).
Proof.
  split; intros env st.
  - destruct (BirdMap.skipFetch st) eqn:Hs.
    + rewrite (fetchBirdData_skipped env st Hs). simpl.
      now rewrite (fetchBirdData_skipped env st Hs).
    + destruct (BirdMap.tryFetch env st) as [[processed | e] log] eqn:Ht.
      * rewrite (fetchBirdData_succeeded env st _ _ Hs Ht). simpl.
        match goal with |- context [BirdMap.fetchBirdData env ?s] => set (st1 := s) end.
        destruct (BirdMap.skipFetch st1) eqn:Hs1.
        -- now rewrite (fetchBirdData_skipped env st1 Hs1).
        -- assert (Ht1 : BirdMap.tryFetch env st1 = (Ok processed, log)) by exact Ht.
           now rewrite (fetchBirdData_succeeded env st1 _ _ Hs1 Ht1).
      * rewrite (fetchBirdData_failed env st _ _ Hs Ht). simpl.
        match goal with |- context [BirdMap.fetchBirdData env ?s] => set (st1 := s) end.
        assert (Hs1 : BirdMap.skipFetch st1 = false) by exact Hs.
        assert (Ht1 : BirdMap.tryFetch env st1 = (Throw e, log)) by exact Ht.
        now rewrite (fetchBirdData_failed env st1 _ _ Hs1 Ht1).
  - destruct (Part000.tryFetch env st) as [[processed | e] log] eqn:Ht.
    + rewrite (part000_fetchBirdData_succeeded env st _ _ Ht). simpl.
      match goal with |- context [Part000.fetchBirdData env ?s] => set (st1 := s) end.
      assert (Ht1 : Part000.tryFetch env st1 = (Ok processed, log)) by exact Ht.
      now rewrite (part000_fetchBirdData_succeeded env st1 _ _ Ht1).
    + rewrite (part000_fetchBirdData_failed env st _ _ Ht). simpl.
      match goal with |- context [Part000.fetchBirdData env ?s] => set (st1 := s) end.
      assert (Ht1 : Part000.tryFetch env st1 = (Throw e, log)) by exact Ht.
      now rewrite (part000_fetchBirdData_failed env st1 _ _ Ht1).
Qed.

(** An empty answer of eBird, or one without a valid observation, gives an
    empty list of clusters and no error, whatever the photo service does:
    the callback that reads the photo table never runs. *)
Theorem no_valid_observation_no_cluster
  (env : BirdMap.Env) (st : BirdMap.State) (data : list Sighting.t) :
  BirdMap.shouldFetch st = true ->
  BirdMap.birds env (BirdMap.query st) = response true (Some data) ->
  validSightings data = [] ->
  BirdMap.birdSightings (fst (BirdMap.fetchBirdData env st)) = []
  /\ ~ surfacedError (snd (BirdMap.fetchBirdData env st)).
Proof.
  intros Hgate Hbirds Hvalid.
  pose proof (shouldFetch_skipFetch st Hgate) as Hs.
  destruct (BirdMap.tryFetch env st) as [outcome log] eqn:Ht.
  assert (Ho : outcome = Ok []
               /\ log = snd (processData (BirdMap.speciesLookup env) data)).
  { unfold BirdMap.tryFetch in Ht. rewrite Hbirds in Ht. split.
    - replace outcome with (fst (processData (BirdMap.speciesLookup env) data))
        by now rewrite Ht.
      rewrite processData_fst, Hvalid. reflexivity.
    - now rewrite Ht. }
  destruct Ho as [-> ->].
  rewrite (fetchBirdData_succeeded env st _ _ Hs Ht). simpl.
  split; [reflexivity | apply processData_log].
Qed.

Lemma no_valid_observation_no_cluster_witness :
  BirdMap.birdSightings
    (fst (BirdMap.fetchBirdData
            (BirdMap.mkEnv (fun _ => response true (Some [robin_invalid]))
                           (fun _ => response true (Some (VObj []))))
            BirdMap.initial)) = []
  /\ ~ surfacedError
        (snd (BirdMap.fetchBirdData
                (BirdMap.mkEnv (fun _ => response true (Some [robin_invalid]))
                               (fun _ => response true (Some (VObj []))))
                BirdMap.initial)).
Proof.
  apply (no_valid_observation_no_cluster
           (BirdMap.mkEnv (fun _ => response true (Some [robin_invalid]))
                          (fun _ => response true (Some (VObj []))))
           BirdMap.initial [robin_invalid]);
    reflexivity.
Defined.

(** * Part III: further properties of the code *)

(** ** Small moves and rounding *)

Section SmallMoves.

Local Open Scope R_scope.

Lemma sin_sqr_le (x : R) : sin x * sin x <= x * x.
Proof.
  assert (Hpos : forall y, 0 < y -> - y <= sin y <= y).
  { intros y Hy. split; [| left; now apply sin_lt_x].
    destruct (Rle_dec y PI) as [Hle | Hgt].
    - pose proof (sin_ge_0 y) as H. lra.
    - pose proof (SIN_bound y) as [H _]. pose proof PI2_3_2. lra. }
  destruct (Rtotal_order x 0) as [Hneg | [-> | Hp]].
  - destruct (Hpos (- x)) as [H1 H2]; [lra |]. rewrite sin_neg in H1, H2. nra.
  - rewrite sin_0. lra.
  - destruct (Hpos x Hp) as [H1 H2]. nra.
Qed.

Lemma haversine_le (lat1 lon1 lat2 lon2 : R) :
  haversine lat1 lon1 lat2 lon2
  <= ((lat2 - lat1) * PI / 360) * ((lat2 - lat1) * PI / 360)
     + ((lon2 - lon1) * PI / 360) * ((lon2 - lon1) * PI / 360).
Proof.
  unfold haversine; cbv zeta.
  replace ((lat2 - lat1) * PI / 180 / 2) with ((lat2 - lat1) * PI / 360) by field.
  replace ((lon2 - lon1) * PI / 180 / 2) with ((lon2 - lon1) * PI / 360) by field.
  pose proof (sin_sqr_le ((lat2 - lat1) * PI / 360)) as Hu.
  pose proof (sin_sqr_le ((lon2 - lon1) * PI / 360)) as Hv.
  pose proof (COS_bound (lat1 * PI / 180)) as [Ha1 Ha2].
  pose proof (COS_bound (lat2 * PI / 180)) as [Hb1 Hb2].
  set (s := sin ((lon2 - lon1) * PI / 360)) in *.
  set (c1 := cos (lat1 * PI / 180)) in *.
  set (c2 := cos (lat2 * PI / 180)) in *.
  assert (Hc : c1 * c2 <= 1) by nra.
  assert (Hs : 0 <= s * s) by nra.
  assert (c1 * c2 * s * s <= s * s) by nra.
  lra.
Qed.

Lemma calculateDistance_le_angle (lat1 lon1 lat2 lon2 y : R) :
  0 <= y < PI / 2 ->
  haversine lat1 lon1 lat2 lon2 <= sin y * sin y ->
  calculateDistance lat1 lon1 lat2 lon2 <= 6371 * (2 * y).
Proof.
  intros [Hy0 Hy1] Ha. unfold calculateDistance. cbv zeta.
  set (a := haversine lat1 lon1 lat2 lon2) in *.
  assert (Hsin : 0 <= sin y) by (apply sin_ge_0; pose proof PI_RGT_0; lra).
  assert (Hcos : 0 < cos y) by (apply cos_gt_0; lra).
  assert (Hnum : sqrt a <= sin y).
  { rewrite <- (sqrt_square (sin y)) by assumption.
    destruct (Rle_dec 0 a) as [Hpos | Hneg].
    - now apply sqrt_le_1_alt.
    - rewrite (sqrt_neg_0 a) by lra. rewrite sqrt_square by assumption. assumption. }
  assert (Hden : cos y <= sqrt (1 - a)).
  { rewrite <- (sqrt_square (cos y)) by lra. apply sqrt_le_1_alt.
    pose proof (sin2_cos2 y) as H. unfold Rsqr in H. lra. }
  assert (Hrt : 0 <= sqrt a) by apply sqrt_pos.
  unfold Math.atan2. destruct (Rlt_dec 0 (sqrt (1 - a))) as [Hd | Hd]; [| lra].
  assert (Ht : sqrt a / sqrt (1 - a) <= tan y).
  { unfold tan, Rdiv.
    apply Rle_trans with (sin y * / sqrt (1 - a)).
    - apply Rmult_le_compat_r; [left; now apply Rinv_0_lt_compat | assumption].
    - apply Rmult_le_compat_l; [assumption |]. now apply Rinv_le_contravar. }
  assert (Hat : atan (sqrt a / sqrt (1 - a)) <= y).
  { rewrite <- (atan_tan y) by lra.
    destruct Ht as [Hlt | Heq]; [left; now apply atan_increasing | rewrite Heq; lra]. }
  lra.
Qed.

Lemma sin_5000 : 19 / 100000 <= sin (1 / 5000).
Proof.
  pose proof PI2_3_2 as Hpi.
  destruct (SIN (1 / 5000)) as [Hlb _]; [lra | lra |].
  apply Rle_trans with (sin_lb (1 / 5000)); [| exact Hlb].
  unfold sin_lb, sin_approx, sin_term. simpl sum_f_R0.
  unfold Rdiv. simpl. lra.
Qed.

Lemma Rabs_le_between (d b : R) : Rabs d <= b -> - b <= d <= b.
Proof. unfold Rabs. destruct (Rcase_abs d); lra. Qed.

Lemma small_angle_sqr (d : R) :
  Rabs d <= 1 / 100 -> (d * PI / 360) * (d * PI / 360) <= 16 / 1296000000.
Proof.
  intros Hd. apply Rabs_le_between in Hd.
  pose proof PI_RGT_0 as Hp0. pose proof PI_4 as Hp4.
  assert (Hd2 : d * d <= 1 / 10000) by nra.
  assert (Hpi2 : PI * PI <= 16) by nra.
  assert (H0 : 0 <= d * d) by nra.
  assert (H1 : 0 <= PI * PI) by nra.
  replace (d * PI / 360 * (d * PI / 360)) with ((d * d) * (PI * PI) / 129600) by field.
  assert ((d * d) * (PI * PI) <= 1 / 10000 * 16) by (apply Rmult_le_compat; lra).
  lra.
Qed.

Lemma calculateDistance_small_move (lat1 lon1 lat2 lon2 : R) :
  Rabs (lat2 - lat1) <= 1 / 100 -> Rabs (lon2 - lon1) <= 1 / 100 ->
  calculateDistance lat1 lon1 lat2 lon2 < 3.
Proof.
  intros Hlat Hlon. pose proof PI2_3_2 as Hpi.
  apply Rle_lt_trans with (6371 * (2 * (1 / 5000))); [| lra].
  apply calculateDistance_le_angle; [lra |].
  pose proof (haversine_le lat1 lon1 lat2 lon2) as Ha.
  pose proof (small_angle_sqr _ Hlat) as Hu.
  pose proof (small_angle_sqr _ Hlon) as Hv.
  pose proof sin_5000 as Hs.
  assert (Hs2 : 19 / 100000 * (19 / 100000) <= sin (1 / 5000) * sin (1 / 5000))
    by (apply Rmult_le_compat; lra).
  lra.
Qed.

Lemma toFixed_error (x : R) (digits : nat) :
  Rabs (toFixed x digits - x) <= / (2 * 10 ^ digits).
Proof.
  unfold toFixed. set (s := 10 ^ digits).
  assert (Hs : 0 < s) by (apply pow_lt; lra).
  assert (Hi : 0 < / s) by now apply Rinv_0_lt_compat.
  assert (His : / s * s = 1) by (apply Rinv_l; lra).
  rewrite Rinv_mult. 
  destruct (Rlt_dec x 0) as [Hneg | Hpos].
  - destruct (base_Int_part (- x * s + / 2)) as [H1 H2].
    set (n := IZR (Int_part (- x * s + / 2))) in *.
    apply Rabs_le. unfold Rdiv.
    assert (E : - (n * / s) - x = / s * (- x * s - n)) by (field; lra).
    rewrite E. split; nra.
  - destruct (base_Int_part (x * s + / 2)) as [H1 H2].
    set (n := IZR (Int_part (x * s + / 2))) in *.
    apply Rabs_le. unfold Rdiv.
    assert (E : n * / s - x = / s * (n - x * s)) by (field; lra).
    rewrite E. split; nra.
Qed.

End SmallMoves.

Lemma skipFetch_small_move (st : BirdMap.State) (p : BirdMap.Params.t) (last : LatLng.t) :
  BirdMap.lastFetchParams st = Some p ->
  BirdMap.Params.daysBack p = BirdMap.daysBack st ->
  BirdMap.Params.sightingType p = BirdMap.sightingType st ->
  BirdMap.lastFetchLocation st = Some last ->
  (Rabs (LatLng.lat (BirdMap.mapCenter st) - LatLng.lat last) <= 1 / 100)%R ->
  (Rabs (LatLng.lng (BirdMap.mapCenter st) - LatLng.lng last) <= 1 / 100)%R ->
  BirdMap.skipFetch st = true.
Proof.
  intros Hp Hd Ht Hl Hlat Hlng.
  unfold BirdMap.skipFetch, BirdMap.distanceFromLastFetch.
  assert (Hc : BirdMap.paramsChanged st = false)
    by (apply paramsChanged_false; now exists p).
  rewrite Hc, Hl. simpl.
  destruct (Rlt_dec _ 3) as [_ | Hge]; [reflexivity |].
  exfalso. apply Hge. now apply calculateDistance_small_move.
Qed.

(** A pan that leaves the map centre within 0.01 degrees of the last fetch
    in latitude and in longitude, the parameters being those of the last
    fetch, is less than 3 km and never goes past the gate: [fetchBirdData]
    returns at once, leaving the state as it is and sending nothing. *)
Theorem small_pan_is_skipped
  (env : BirdMap.Env) (st : BirdMap.State) (p : BirdMap.Params.t) (last : LatLng.t) :
  BirdMap.lastFetchParams st = Some p ->
  BirdMap.Params.daysBack p = BirdMap.daysBack st ->
  BirdMap.Params.sightingType p = BirdMap.sightingType st ->
  BirdMap.lastFetchLocation st = Some last ->
  (Rabs (LatLng.lat (BirdMap.mapCenter st) - LatLng.lat last) <= 1 / 100)%R ->
  (Rabs (LatLng.lng (BirdMap.mapCenter st) - LatLng.lng last) <= 1 / 100)%R ->
  (calculateDistance (LatLng.lat last) (LatLng.lng last)
     (LatLng.lat (BirdMap.mapCenter st)) (LatLng.lng (BirdMap.mapCenter st)) < 3)%R
  /\ BirdMap.shouldFetch st = false
  /\ BirdMap.fetchBirdData env st = (st, [console_log "Skipping fetch"]).
Proof.
  intros Hp Hd Ht Hl Hlat Hlng.
  pose proof (skipFetch_small_move st p last Hp Hd Ht Hl Hlat Hlng) as Hskip.
  split; [now apply calculateDistance_small_move |]. split.
  - unfold BirdMap.shouldFetch. now rewrite Hskip.
  - now apply fetchBirdData_skipped.
Qed.

Lemma small_pan_is_skipped_witness :
  (calculateDistance 36.97 (-122.03) 36.975 (-122.035) < 3)%R
  /\ BirdMap.shouldFetch BirdMap.nudged = false
  /\ BirdMap.fetchBirdData BirdMap.offline BirdMap.nudged
     = (BirdMap.nudged, [console_log "Skipping fetch"]).
Proof.
  apply (small_pan_is_skipped BirdMap.offline BirdMap.nudged
           (BirdMap.Params.mk "7" "recent") (LatLng.mk 36.97 (-122.03)));
    try reflexivity.
  - simpl. apply Rabs_le. lra.
  - simpl. apply Rabs_le. lra.
Defined.

(** A cycle that went past the gate and raised no error has recorded the
    rounded map centre and the parameters, and with them the gate is shut:
    as long as nothing changes, a further call of [fetchBirdData] returns at
    once.  The rounding to four decimals moves the recorded centre by at
    most 0.00005 degrees, far less than 3 km. *)
Theorem recorded_fetch_shuts_gate (env : BirdMap.Env) (st : BirdMap.State) :
  BirdMap.shouldFetch st = true ->
  ~ surfacedError (snd (BirdMap.fetchBirdData env st)) ->
  BirdMap.lastFetchLocation (fst (BirdMap.fetchBirdData env st))
  = Some (BirdMap.roundedCenter st)
  /\ BirdMap.lastFetchParams (fst (BirdMap.fetchBirdData env st))
     = Some (BirdMap.Params.mk (BirdMap.daysBack st) (BirdMap.sightingType st))
  /\ BirdMap.shouldFetch (fst (BirdMap.fetchBirdData env st)) = false
  /\ forall env',
       BirdMap.fetchBirdData env' (fst (BirdMap.fetchBirdData env st))
       = (fst (BirdMap.fetchBirdData env st), [console_log "Skipping fetch"]).
Proof.
  intros Hgate Hquiet.
  pose proof (shouldFetch_skipFetch st Hgate) as Hs.
  destruct (BirdMap.tryFetch env st) as [[processed | e] log] eqn:Ht.
  - rewrite (fetchBirdData_succeeded env st _ _ Hs Ht). simpl.
    split; [reflexivity |]. split; [reflexivity |].
    match goal with |- BirdMap.shouldFetch ?s = _ /\ _ => set (st' := s) end.
    assert (Hsmall : forall x : R, (Rabs (x - toFixed x 4) <= 1 / 100)%R).
    { intros x. rewrite Rabs_minus_sym.
      apply Rle_trans with (/ (2 * 10 ^ 4))%R; [apply toFixed_error |].
      simpl. lra. }
    assert (Hskip : BirdMap.skipFetch st' = true).
    { apply (skipFetch_small_move st'
               (BirdMap.Params.mk (BirdMap.daysBack st) (BirdMap.sightingType st))
               (BirdMap.roundedCenter st)); try reflexivity; apply Hsmall. }
    split.
    + unfold BirdMap.shouldFetch. now rewrite Hskip.
    + intros env'. now apply fetchBirdData_skipped.
  - exfalso. apply Hquiet.
    rewrite (fetchBirdData_failed env st _ _ Hs Ht). simpl.
    unfold surfacedError. apply in_or_app. right. right. now left.
Qed.

Lemma recorded_fetch_shuts_gate_witness :
  BirdMap.shouldFetch (fst (BirdMap.fetchBirdData BirdMap.quietDay BirdMap.initial)) = false.
Proof.
  apply (recorded_fetch_shuts_gate BirdMap.quietDay BirdMap.initial).
  - reflexivity.
  - simpl. unfold surfacedError. simpl. intros [H | []]. discriminate.
Defined.

(** ** Rounding with [toFixed] *)

Section Rounding.

Local Open Scope R_scope.

Lemma Int_part_half (n : Z) : Int_part (IZR n + / 2) = n.
Proof. symmetry. apply Int_part_spec. lra. Qed.

Lemma toFixed_of_grid (n : Z) (digits : nat) :
  toFixed (IZR n / 10 ^ digits) digits = IZR n / 10 ^ digits.
Proof.
  unfold toFixed. set (s := 10 ^ digits).
  assert (Hs : 0 < s) by (apply pow_lt; lra).
  destruct (Rlt_dec (IZR n / s) 0) as [Hneg | Hpos].
  - replace (- (IZR n / s) * s + / 2) with (IZR (- n) + / 2)
      by (rewrite opp_IZR; field; lra).
    rewrite Int_part_half, opp_IZR. field. lra.
  - replace (IZR n / s * s + / 2) with (IZR n + / 2) by (field; lra).
    now rewrite Int_part_half.
Qed.

Lemma toFixed_grid (x : R) (digits : nat) :
  exists n : Z, toFixed x digits = IZR n / 10 ^ digits.
Proof.
  unfold toFixed. set (s := 10 ^ digits).
  assert (Hs : 0 < s) by (apply pow_lt; lra).
  destruct (Rlt_dec x 0).
  - exists (- Int_part (- x * s + / 2))%Z. rewrite opp_IZR. field. lra.
  - now exists (Int_part (x * s + / 2)).
Qed.

End Rounding.

(** What [fetchBirdData] sends to [/api/birds]: the map centre to within
    0.00005 degrees in each coordinate, on the grid of four decimals; the
    radius to within 0.05 km, on the grid of one decimal; the classification
    and the day count as the selects have them.  Rounding a rounded centre
    again leaves it where it is. *)
Theorem request_is_rounded (st : BirdMap.State) :
  (Rabs (BirdMap.Query.lat (BirdMap.query st) - LatLng.lat (BirdMap.mapCenter st))
   <= 5 / 100000)%R
  /\ (Rabs (BirdMap.Query.lng (BirdMap.query st) - LatLng.lng (BirdMap.mapCenter st))
      <= 5 / 100000)%R
  /\ (Rabs (BirdMap.Query.dist (BirdMap.query st) - BirdMap.radius st) <= 5 / 100)%R
  /\ (exists n m k : Z,
        BirdMap.Query.lat (BirdMap.query st) = (IZR n / 10000)%R
        /\ BirdMap.Query.lng (BirdMap.query st) = (IZR m / 10000)%R
        /\ BirdMap.Query.dist (BirdMap.query st) = (IZR k / 10)%R)
  /\ BirdMap.Query.type (BirdMap.query st) = BirdMap.sightingType st
  /\ BirdMap.Query.back (BirdMap.query st) = BirdMap.daysBack st
  /\ BirdMap.roundedCenter (BirdMap.setMapCenter (BirdMap.roundedCenter st) st)
     = BirdMap.roundedCenter st.
Proof.
  assert (H4 : (/ (2 * 10 ^ 4) = 5 / 100000)%R) by (simpl; field).
  assert (H1 : (/ (2 * 10 ^ 1) = 5 / 100)%R) by (simpl; field).
  assert (P4 : (10 ^ 4 = 10000)%R) by (simpl; ring).
  assert (P1 : (10 ^ 1 = 10)%R) by (simpl; ring).
  simpl. split; [rewrite <- H4; apply toFixed_error |].
  split; [rewrite <- H4; apply toFixed_error |].
  split; [rewrite <- H1; apply toFixed_error |].
  split.
  - destruct (toFixed_grid (LatLng.lat (BirdMap.mapCenter st)) 4) as [n Hn].
    destruct (toFixed_grid (LatLng.lng (BirdMap.mapCenter st)) 4) as [m Hm].
    destruct (toFixed_grid (BirdMap.radius st) 1) as [k Hk].
    exists n, m, k. rewrite Hn, Hm, Hk, P4, P1. now repeat split.
  - split; [reflexivity |]. split; [reflexivity |].
    unfold BirdMap.roundedCenter. simpl.
    destruct (toFixed_grid (LatLng.lat (BirdMap.mapCenter st)) 4) as [n Hn].
    destruct (toFixed_grid (LatLng.lng (BirdMap.mapCenter st)) 4) as [m Hm].
    rewrite Hn, Hm. now rewrite !toFixed_of_grid.
Qed.

(** ** Every observation is accounted for *)

Section GroupByPartition.

Context {A K : Type}.
Variable K_eq_dec : forall x y : K, {x = y} + {x <> y}.
Variable iteratee : A -> K.

Lemma groupBy_add_concat (key : K) (x : A) (acc : list (K * list A)) :
  Permutation (List.concat (map snd (groupBy_add K_eq_dec key x acc)))
              (x :: List.concat (map snd acc)).
Proof.
  induction acc as [| [k g] rest IH]; simpl.
  - apply Permutation_refl.
  - destruct (K_eq_dec k key); simpl.
    + rewrite <- app_assoc. simpl.
      apply Permutation_sym, Permutation_middle.
    + apply perm_trans with (g ++ x :: List.concat (map snd rest)).
      * now apply Permutation_app_head.
      * apply Permutation_sym, Permutation_middle.
Qed.

Lemma groupBy_fold_concat (l : list A) :
  forall acc,
    Permutation
      (List.concat (map snd (fold_left (fun acc x => groupBy_add K_eq_dec (iteratee x) x acc) l acc)))
      (List.concat (map snd acc) ++ l).
Proof.
  induction l as [| x l IH]; simpl; intros acc.
  - rewrite app_nil_r. apply Permutation_refl.
  - apply perm_trans with (List.concat (map snd (groupBy_add K_eq_dec (iteratee x) x acc)) ++ l).
    + apply IH.
    + apply perm_trans with ((x :: List.concat (map snd acc)) ++ l).
      * apply Permutation_app_tail, groupBy_add_concat.
      * simpl. apply Permutation_middle.
Qed.

(** The groups of [_.groupBy] hold every element of the collection once. *)
Lemma groupBy_concat (l : list A) :
  Permutation (List.concat (map snd (groupBy K_eq_dec iteratee l))) l.
Proof. unfold groupBy. apply (groupBy_fold_concat l []). Qed.

End GroupByPartition.

Lemma Permutation_flat_map_pointwise {A B : Type} (f g : A -> list B) (l : list A) :
  (forall x, In x l -> Permutation (f x) (g x)) ->
  Permutation (flat_map f l) (flat_map g l).
Proof.
  induction l as [| a l IH]; simpl; intros H.
  - apply Permutation_refl.
  - apply Permutation_app; [apply H; now left | apply IH; intros x Hx; apply H; now right].
Qed.

Lemma flat_map_map_snd {A K B : Type} (h : A -> B) (l : list (K * list A)) :
  flat_map (fun e : K * list A => map h (snd e)) l = map h (List.concat (map snd l)).
Proof.
  induction l as [| [k g] l IH]; simpl; [reflexivity |].
  now rewrite map_app, IH.
Qed.

Lemma flat_map_map {A B C : Type} (f : B -> list C) (g : A -> B) (l : list A) :
  flat_map f (map g l) = flat_map (fun x => f (g x)) l.
Proof. induction l as [| a l IH]; simpl; [reflexivity | now rewrite IH]. Qed.

(** The entries of the records built on the observations [g] of one place. *)
Lemma plainBirds_entries (key : R * R) (g : list Sighting.t) :
  (forall s, In s g -> locationKey s = key) ->
  Permutation
    (recordEntries (Location.mk (fst key) (snd key) (plainBirds g)))
    (map sightingEntry g).
Proof.
  intros Hkey. unfold recordEntries, plainBirds. simpl. rewrite flat_map_map.
  apply perm_trans with
    (flat_map (fun e : string * list Sighting.t => map sightingEntry (snd e))
              (Object_entries (birdsBySpecies g))).
  - apply Permutation_flat_map_pointwise. intros [name grp] Hin. simpl.
    apply (proj1 (Object_entries_In _ _)) in Hin.
    rewrite (plainBird_comName _ _ _ Hin). rewrite map_map.
    destruct (groupBy_In _ _ _ _ _ Hin) as [Hg _].
    assert (E : map (fun s => (clusterKey (Location.mk (fst key) (snd key) (plainBirds g)),
                               Some name, Sighting.subId s)) grp
                = map sightingEntry grp).
    { apply map_ext_in. intros s Hs. unfold sightingEntry, clusterKey. simpl.
      rewrite Hg in Hs. apply filter_In in Hs. destruct Hs as [Hs Hn].
      apply hasKey_true in Hn. rewrite Hn, (Hkey s Hs). now destruct key. }
    unfold plainBirds in E. rewrite E. apply Permutation_refl.
  - apply perm_trans with
      (flat_map (fun e : string * list Sighting.t => map sightingEntry (snd e))
                (birdsBySpecies g)).
    + apply Permutation_flat_map, Object_entries_perm.
    + rewrite flat_map_map_snd. apply Permutation_map. apply groupBy_concat.
Qed.

Lemma normalize_entries (data : list Sighting.t) :
  Permutation (clusterEntries (normalize data)) (map sightingEntry (validSightings data)).
Proof.
  rewrite normalize_plain. unfold clusterEntries, plainClusters. rewrite flat_map_map.
  apply perm_trans with
    (flat_map (fun e : R * R * list Sighting.t => map sightingEntry (snd e))
              (groupedByLocation (validSightings data))).
  - apply Permutation_flat_map_pointwise. intros [[lat lng] g] Hin.
    apply (plainBirds_entries (lat, lng) g).
    intros s Hs. destruct (groupBy_In _ _ _ _ _ Hin) as [Hg _].
    rewrite Hg in Hs. apply filter_In in Hs. destruct Hs as [_ Hk].
    now apply hasKey_true in Hk.
  - rewrite flat_map_map_snd. apply Permutation_map. apply groupBy_concat.
Qed.

Lemma withoutPhotos_entries (clusters : list Location.t) :
  clusterEntries (map Location.withoutPhotos clusters) = clusterEntries clusters.
Proof.
  unfold clusterEntries. rewrite flat_map_map. apply flat_map_ext. intros c.
  unfold recordEntries, Location.withoutPhotos. simpl. rewrite flat_map_map.
  reflexivity.
Qed.

(** The clusters hold every valid observation once and nothing else: their
    records, read back as (place, common name, submission id), are the valid
    observations of the input up to order.  So do the clusters of every run
    that completes, whatever photos were attached. *)
Theorem observations_are_conserved (data : list Sighting.t) :
  Permutation (clusterEntries (normalize data)) (map sightingEntry (validSightings data))
  /\ (forall speciesLookup clusters,
        fst (processData speciesLookup data) = Ok clusters ->
        Permutation (clusterEntries clusters) (map sightingEntry (validSightings data))
        /\ List.length (clusterEntries clusters) = List.length (validSightings data)).
Proof.
  split; [apply normalize_entries |].
  intros speciesLookup clusters Hrun. apply processData_frame in Hrun.
  assert (Hp : Permutation (clusterEntries clusters)
                           (map sightingEntry (validSightings data))).
  { rewrite <- withoutPhotos_entries, Hrun, withoutPhotos_entries.
    apply normalize_entries. }
  split; [exact Hp |].
  apply Permutation_length in Hp. now rewrite length_map in Hp.
Qed.

(** ** The photo request and the shape of the clusters *)

Lemma Set_of_fold (l : list string) :
  forall seen,
    NoDup seen ->
    NoDup (fold_left (fun seen x => if in_dec string_dec x seen then seen else seen ++ [x])
                     l seen)
    /\ forall x,
         In x (fold_left (fun seen x => if in_dec string_dec x seen then seen else seen ++ [x])
                         l seen)
         <-> In x seen \/ In x l.
Proof.
  induction l as [| a l IH]; simpl; intros seen Hnd.
  - split; [assumption | intros x; tauto].
  - destruct (in_dec string_dec a seen) as [Hin | Hnin].
    + destruct (IH seen Hnd) as [H1 H2]. split; [assumption |].
      intros x. rewrite H2. split; [tauto |]. intros [H | [<- | H]]; tauto.
    + assert (Hnd' : NoDup (seen ++ [a])).
      { apply NoDup_rev in Hnd. rewrite <- (rev_involutive (seen ++ [a])).
        apply NoDup_rev. rewrite rev_app_distr. simpl. constructor; [| assumption].
        now rewrite <- in_rev. }
      destruct (IH _ Hnd') as [H1 H2]. split; [assumption |].
      intros x. rewrite H2, in_app_iff. simpl. tauto.
Qed.

Lemma Set_of_spec (l : list string) :
  NoDup (Set_of l) /\ forall x, In x (Set_of l) <-> In x l.
Proof.
  destruct (Set_of_fold l [] (NoDup_nil _)) as [H1 H2]. split; [exact H1 |].
  intros x. unfold Set_of. rewrite H2. simpl. tauto.
Qed.

(** The batched photo lookup names every species key of a valid observation
    exactly once and no other key, and the key of every record of the
    clusters is among them: no record goes without its photo for not having
    been asked for. *)
Theorem lookup_request_lists_each_species_once (data : list Sighting.t) :
  NoDup (uniqueSpecies (validSightings data))
  /\ (forall key,
        In key (uniqueSpecies (validSightings data)) <->
        exists s, In s data /\ Sighting.obsValid s = true /\ speciesKey s = key)
  /\ (forall c r,
        In c (normalize data) -> In r (Location.birds c) ->
        exists key, birdKey r = Some key /\ In key (uniqueSpecies (validSightings data))).
Proof.
  unfold uniqueSpecies.
  destruct (Set_of_spec (map speciesKey (validSightings data))) as [Hnd Hin].
  split; [exact Hnd |]. split.
  - intros key. rewrite Hin, in_map_iff. unfold validSightings. split.
    + intros [s [Hk Hs]]. apply filter_In in Hs. exists s. tauto.
    + intros [s [Hs [Hv Hk]]]. exists s. split; [assumption |].
      apply filter_In. tauto.
  - intros c r Hc Hr.
    destruct (normalize_bird _ _ _ Hc Hr) as [name [Hne ->]].
    destruct (mergedSightings data (clusterKey c) name) as [| first rest] eqn:Em;
      [congruence |].
    exists (speciesKey first). split; [reflexivity |].
    apply Hin, in_map.
    assert (Hf : In first (mergedSightings data (clusterKey c) name))
      by (rewrite Em; now left).
    apply mergedSightings_In in Hf. apply filter_In. tauto.
Qed.

(** The clusters are the distinct coordinate pairs of the valid
    observations, one cluster each; a cluster is never without a record, and
    its records are the distinct common names observed there, one record
    each. *)
Theorem clusters_are_places_and_species (data : list Sighting.t) :
  NoDup (map clusterKey (normalize data))
  /\ (forall key,
        In key (map clusterKey (normalize data)) <->
        exists s, In s data /\ Sighting.obsValid s = true /\ locationKey s = key)
  /\ (forall c,
        In c (normalize data) ->
        Location.birds c <> []
        /\ NoDup (map Bird.comName (Location.birds c))
        /\ forall name,
             In (Some name) (map Bird.comName (Location.birds c)) <->
             exists s, In s data /\ Sighting.obsValid s = true
                       /\ locationKey s = clusterKey c /\ Sighting.comName s = name).
Proof.
  split; [apply normalize_keys_NoDup |]. split.
  - intros key. rewrite in_map_iff. split.
    + intros [c [<- Hc]]. apply normalize_In in Hc. destruct Hc as [g [Hg _]].
      destruct (groupBy_In _ _ _ _ _ Hg) as [Hgeq Hne].
      destruct g as [| s rest]; [congruence |].
      assert (Hs : In s (filter (hasKey locationKey_eq_dec locationKey (clusterKey c))
                                (validSightings data))) by (rewrite <- Hgeq; now left).
      apply filter_In in Hs. destruct Hs as [Hs Hk]. apply hasKey_true in Hk.
      apply filter_In in Hs. exists s. tauto.
    + intros [s [Hs [Hv Hk]]].
      assert (Hin : In s (validSightings data)) by (apply filter_In; tauto).
      destruct (groupBy_covers locationKey_eq_dec locationKey _ _ Hin) as [g Hg].
      exists (Location.mk (fst key) (snd key) (plainBirds g)). split.
      * unfold clusterKey. simpl. now destruct key.
      * apply normalize_In. exists g. split; [| reflexivity].
        unfold clusterKey. simpl. rewrite Hk in Hg. now destruct key.
  - intros c Hc. apply normalize_In in Hc. destruct Hc as [g [Hg Hb]].
    destruct (groupBy_In _ _ _ _ _ Hg) as [Hgeq Hne].
    rewrite Hb. split; [| split].
    + destruct g as [| s rest]; [congruence |]. unfold plainBirds.
      pose proof (birdsBySpecies_entries_nonempty s rest) as Hn.
      destruct (Object_entries (birdsBySpecies (s :: rest))); [congruence | discriminate].
    + apply plainBirds_names_NoDup.
    + intros name. rewrite in_map_iff. split.
      * intros [r [Hn Hr]]. apply plainBirds_In in Hr.
        destruct Hr as [name' [grp [Hgrp ->]]].
        rewrite (plainBird_comName _ _ _ Hgrp) in Hn. inversion Hn; subst name'.
        destruct (groupBy_In _ _ _ _ _ Hgrp) as [Hgrpeq Hgne].
        destruct grp as [| s rest]; [congruence |].
        assert (Hs : In s (filter (hasKey string_dec Sighting.comName name) g))
          by (rewrite <- Hgrpeq; now left).
        apply filter_In in Hs. destruct Hs as [Hs Hname]. apply hasKey_true in Hname.
        rewrite Hgeq in Hs. apply filter_In in Hs. destruct Hs as [Hs Hk].
        apply hasKey_true in Hk. apply filter_In in Hs. exists s. tauto.
      * intros [s [Hs [Hv [Hk Hname]]]].
        assert (Hin : In s g).
        { rewrite Hgeq. apply filter_In. split; [apply filter_In; tauto |].
          now apply hasKey_true. }
        destruct (groupBy_covers string_dec Sighting.comName _ _ Hin) as [grp Hgrp].
        exists (plainBird grp). split.
        -- rewrite <- Hname. now apply (plainBird_comName _ _ g).
        -- apply plainBirds_In. now exists (Sighting.comName s), grp.
Qed.

(** ** The component in time *)

Section Orchestrator.

Import BirdMap.

Variable env : Env.

Lemma effect_inStep (c : Component) : inStep c -> inStep (fst (effect c)).
Proof.
  unfold effect, beginFetch, inStep. intros H.
  destruct (loading (state c)) eqn:El; [simpl; now rewrite El |].
  destruct (skipFetch (state c)); simpl; [now rewrite El | reflexivity].
Qed.

Lemma effect_loading (c : Component) :
  loading (state c) = true -> effect c = (c, []).
Proof. unfold effect. now intros ->. Qed.

Lemma completeFetch_idle (c : Component) :
  pending (fst (completeFetch env c)) = None
  /\ (pending c <> None -> loading (state (fst (completeFetch env c))) = false).
Proof.
  unfold completeFetch. destruct (pending c) as [closure |] eqn:Ep.
  - destruct (tryFetch env closure) as [[processed | e] log]; simpl; now split.
  - simpl. split; [assumption | congruence].
Qed.

Lemma step_inStep (c : Component) (a : Action) : inStep c -> inStep (fst (step env c a)).
Proof.
  intros H. destruct a as [bounds | center bounds | value | value |]; simpl.
  - exact H.
  - destruct (effect _) as [c' log] eqn:E. simpl.
    change c' with (fst (c', log)). rewrite <- E. apply effect_inStep.
    unfold inStep, boundsChanged in *. simpl. now destruct (mapRef (state c)).
  - destruct (String.eqb value (daysBack (state c))); [exact H |].
    now apply effect_inStep.
  - destruct (loading (state c)) eqn:El; [exact H |].
    destruct (String.eqb value (sightingType (state c))); [exact H |].
    now apply effect_inStep.
  - unfold inStep. destruct (completeFetch_idle c) as [Hp Hl]. rewrite Hp.
    destruct (pending c) as [closure |] eqn:Ep.
    + apply Hl. congruence.
    + unfold completeFetch. rewrite Ep. simpl. unfold inStep in H. now rewrite Ep in H.
Qed.

Lemma run_inStep (actions : list Action) :
  forall c, inStep c -> inStep (run env c actions).
Proof.
  induction actions as [| a rest IH]; simpl; intros c H; [exact H |].
  apply IH. now apply step_inStep.
Qed.

Lemma mounted_inStep : inStep mounted.
Proof. unfold mounted. now apply effect_inStep. Qed.

Lemma reachable_inStep (c : Component) : reachable env c -> inStep c.
Proof. intros [actions ->]. apply run_inStep, mounted_inStep. Qed.

Lemma step_keeps_pending (c : Component) (closure : State) (a : Action) :
  inStep c -> pending c = Some closure -> a <> answered ->
  pending (fst (step env c a)) = Some closure
  /\ birdSightings (state (fst (step env c a))) = birdSightings (state c)
  /\ lastFetchLocation (state (fst (step env c a))) = lastFetchLocation (state c)
  /\ lastFetchParams (state (fst (step env c a))) = lastFetchParams (state c).
Proof.
  intros H Hp Ha. unfold inStep in H. rewrite Hp in H.
  destruct a as [bounds | center bounds | value | value |]; simpl.
  - now repeat split.
  - rewrite effect_loading.
    + simpl. unfold boundsChanged. destruct (mapRef (state c)); now repeat split.
    + simpl. unfold boundsChanged. now destruct (mapRef (state c)).
  - destruct (String.eqb value (daysBack (state c))); [now repeat split |].
    rewrite effect_loading by exact H. now repeat split.
  - rewrite H. now repeat split.
  - congruence.
Qed.

(** While a call of [fetchBirdData] is pending, [loading] is set, and no
    move of the map and no choice in a select starts another call, replaces
    the pending one or touches the published clusters and the recorded
    fetch; the answers end the pending call. *)
Theorem one_call_at_a_time (c : Component) :
  reachable env c ->
  (loading (state c) = true <-> exists closure, pending c = Some closure)
  /\ (forall closure a,
        pending c = Some closure -> a <> answered ->
        pending (fst (step env c a)) = Some closure
        /\ loading (state (fst (step env c a))) = true
        /\ birdSightings (state (fst (step env c a))) = birdSightings (state c)
        /\ lastFetchLocation (state (fst (step env c a))) = lastFetchLocation (state c)
        /\ lastFetchParams (state (fst (step env c a))) = lastFetchParams (state c))
  /\ (forall closure,
        pending c = Some closure ->
        pending (fst (step env c answered)) = None
        /\ loading (state (fst (step env c answered))) = false).
Proof.
  intros Hreach. pose proof (reachable_inStep c Hreach) as Hin.
  split; [| split].
  - unfold inStep in Hin. rewrite Hin. destruct (pending c) as [closure |].
    + split; [intros _; now exists closure | reflexivity].
    + split; [discriminate | intros [closure H]; discriminate].
  - intros closure a Hp Ha.
    destruct (step_keeps_pending c closure a Hin Hp Ha) as [H1 [H2 [H3 H4]]].
    split; [exact H1 |]. split; [| now repeat split].
    pose proof (step_inStep c a Hin) as Hin'. unfold inStep in Hin'.
    now rewrite H1 in Hin'.
  - intros closure Hp. simpl. destruct (completeFetch_idle c) as [H1 H2].
    split; [exact H1 | apply H2; congruence].
Qed.

(** A view the map settles on while a call is pending is taken into
    [mapCenter] and no more: nothing is sent for it, and when the answers of
    the pending call arrive the component is idle, the recorded fetch being
    that of the pending call (or the one before, if the call failed).  This
    is so even when the new view is 3 km or more from the recorded centre,
    where the gate would let a call through. *)
Theorem view_changed_while_loading (c : Component) (closure : State)
  (center : LatLng.t) (bounds : Bounds) :
  reachable env c -> pending c = Some closure ->
  let c1 := fst (step env c (moveend center bounds)) in
  let c2 := fst (step env c1 answered) in
  snd (step env c (moveend center bounds)) = [console_log "lat: "; console_log "lng: "]
  /\ pending c1 = Some closure
  /\ mapCenter (state c2) = LatLng.mk (LatLng.lat center) (LatLng.lng center)
  /\ pending c2 = None
  /\ loading (state c2) = false
  /\ (lastFetchLocation (state c2) = Some (roundedCenter closure)
      \/ lastFetchLocation (state c2) = lastFetchLocation (state c))
  /\ (forall processed log,
        tryFetch env closure = (Ok processed, log) ->
        daysBack (state c) = daysBack closure ->
        sightingType (state c) = sightingType closure ->
        (3 <= calculateDistance (LatLng.lat (roundedCenter closure))
                (LatLng.lng (roundedCenter closure))
                (LatLng.lat center) (LatLng.lng center))%R ->
        shouldFetch (state c2) = true).
Proof.
  intros Hreach Hp c1 c2.
  pose proof (reachable_inStep c Hreach) as Hin.
  assert (Hload : loading (state c) = true) by (unfold inStep in Hin; now rewrite Hp in Hin).
  assert (E1 : step env c (moveend center bounds)
               = (mkComponent (handleMoveEnd center (boundsChanged bounds (state c)))
                              (Some closure),
                  [console_log "lat: "; console_log "lng: "])).
  { simpl. rewrite effect_loading.
    - now rewrite Hp.
    - simpl. unfold boundsChanged. now destruct (mapRef (state c)). }
  unfold c2, c1. rewrite E1. simpl. unfold completeFetch. simpl.
  split; [reflexivity |]. split; [reflexivity |].
  assert (Hlast : lastFetchLocation (boundsChanged bounds (state c))
                  = lastFetchLocation (state c))
    by (unfold boundsChanged; now destruct (mapRef (state c))).
  assert (Hdays : daysBack (boundsChanged bounds (state c)) = daysBack (state c))
    by (unfold boundsChanged; now destruct (mapRef (state c))).
  assert (Htype : sightingType (boundsChanged bounds (state c)) = sightingType (state c))
    by (unfold boundsChanged; now destruct (mapRef (state c))).
  destruct (tryFetch env closure) as [[processed | e] log] eqn:Ht; simpl.
  - repeat split; [now left |].
    intros processed' log' _ Hd Hty Hfar.
    unfold shouldFetch, skipFetch, distanceFromLastFetch, paramsChanged. simpl.
    rewrite Hdays, Htype, Hd, Hty, !String.eqb_refl. simpl.
    destruct (Rlt_dec _ 3) as [Hlt | _]; [exfalso; lra | reflexivity].
  - repeat split; [right; exact Hlast |].
    intros processed' log' H. discriminate.
Qed.

(** A call that nothing interrupts is [fetchBirdData] as a whole: begun and
    completed with no action in between, it leaves the state and shows the
    events of the one-piece function. *)
Lemma uninterrupted_call (st : State) :
  let begun := beginFetch (mkComponent st None) in
  let completed := completeFetch env (fst begun) in
  state (fst completed) = fst (fetchBirdData env st)
  /\ (snd begun ++ snd completed)%list = snd (fetchBirdData env st)
  /\ pending (fst completed) = None.
Proof.
  unfold beginFetch, completeFetch, fetchBirdData. simpl.
  destruct (skipFetch st) eqn:Hs; simpl; [now repeat split |].
  change (tryFetch env (setLoading true st)) with (tryFetch env st).
  destruct (tryFetch env st) as [[processed | e] log]; simpl; now repeat split.
Qed.

(** The select of the day count is not disabled while a call is pending.
    A day count chosen then is taken into [daysBack] and no more: nothing is
    sent for it, and when the answers of the pending call arrive the map
    shows the observations of the day count chosen before, with the select
    on the new one and no call on its way, although the gate would let one
    through.  The select of the classification is disabled meanwhile. *)
Theorem days_chosen_while_loading (c : Component) (closure : State) (value : string) :
  reachable env c -> pending c = Some closure ->
  value <> daysBack (state c) ->
  daysBack (state c) = daysBack closure ->
  let c1 := fst (step env c (daysChange value)) in
  let c2 := fst (step env c1 answered) in
  snd (step env c (daysChange value)) = []
  /\ pending c1 = Some closure
  /\ daysBack (state c2) = value
  /\ pending c2 = None
  /\ loading (state c2) = false
  /\ (forall processed log,
        tryFetch env closure = (Ok processed, log) ->
        birdSightings (state c2) = processed
        /\ lastFetchParams (state c2)
           = Some (Params.mk (daysBack closure) (sightingType closure))
        /\ shouldFetch (state c2) = true)
  /\ (forall type, fst (step env c (typeChange type)) = c).
Proof.
  intros Hreach Hp Hne Hsame c1 c2.
  pose proof (reachable_inStep c Hreach) as Hin.
  assert (Hload : loading (state c) = true) by (unfold inStep in Hin; now rewrite Hp in Hin).
  assert (Hneq : String.eqb value (daysBack (state c)) = false) by now apply String.eqb_neq.
  assert (E1 : step env c (daysChange value)
               = (mkComponent (handleDaysChange value (state c)) (Some closure), [])).
  { simpl. rewrite Hneq, effect_loading; [now rewrite Hp | exact Hload]. }
  unfold c2, c1. rewrite E1. simpl. unfold completeFetch. simpl.
  split; [reflexivity |]. split; [reflexivity |].
  assert (Htype : forall type, fst (step env c (typeChange type)) = c)
    by (intros type; simpl; now rewrite Hload).
  destruct (tryFetch env closure) as [[processed | e] log] eqn:Ht; simpl.
  - split; [reflexivity |]. split; [reflexivity |]. split; [reflexivity |].
    split; [| exact Htype].
    intros processed' log' Hok. inversion Hok; subst processed' log'.
    split; [reflexivity |]. split; [reflexivity |].
    unfold shouldFetch, skipFetch, paramsChanged. simpl.
    rewrite <- Hsame. rewrite String.eqb_sym in Hneq. now rewrite Hneq.
  - split; [reflexivity |]. split; [reflexivity |]. split; [reflexivity |].
    split; [| exact Htype].
    intros processed' log' Hok. discriminate.
Qed.

End Orchestrator.

Lemma one_call_at_a_time_witness :
  BirdMap.loading (BirdMap.state BirdMap.mounted) = true
  <-> exists closure, BirdMap.pending BirdMap.mounted = Some closure.
Proof.
  apply (one_call_at_a_time BirdMap.offline BirdMap.mounted). now exists [].
Defined.

Lemma roundedCenter_initial :
  BirdMap.roundedCenter BirdMap.initial = LatLng.mk 36.9741 (-122.0308).
Proof.
  unfold BirdMap.roundedCenter. simpl.
  replace 36.9741%R with (IZR 369741 / 10 ^ 4)%R by (simpl; lra).
  replace (-122.0308)%R with (IZR (-1220308) / 10 ^ 4)%R by (simpl; lra).
  now rewrite !toFixed_of_grid.
Qed.

Lemma view_changed_while_loading_witness :
  let c2 :=
    fst (BirdMap.step BirdMap.quietDay
           (fst (BirdMap.step BirdMap.quietDay BirdMap.mounted
                   (BirdMap.moveend (LatLng.mk (36.9741 + BirdMap.degreesNorth 5) (-122.0308))
                      (BirdMap.mkBounds (LatLng.mk 37.1 (-121.9))
                                        (LatLng.mk 36.9 (-122.1))))))
           BirdMap.answered) in
  BirdMap.pending c2 = None /\ BirdMap.shouldFetch (BirdMap.state c2) = true.
Proof.
  assert (Hreach : BirdMap.reachable BirdMap.quietDay BirdMap.mounted) by now exists [].
  destruct (view_changed_while_loading BirdMap.quietDay BirdMap.mounted BirdMap.initial
              (LatLng.mk (36.9741 + BirdMap.degreesNorth 5) (-122.0308))
              (BirdMap.mkBounds (LatLng.mk 37.1 (-121.9)) (LatLng.mk 36.9 (-122.1)))
              Hreach eq_refl) as [_ [_ [_ [Hp [_ [_ Hstale]]]]]].
  split; [exact Hp |].
  eapply Hstale; try reflexivity.
  rewrite roundedCenter_initial. simpl.
  rewrite degreesNorth_distance; lra.
Defined.

Lemma days_chosen_while_loading_witness :
  let c2 :=
    fst (BirdMap.step BirdMap.quietDay
           (fst (BirdMap.step BirdMap.quietDay BirdMap.mounted (BirdMap.daysChange "14")))
           BirdMap.answered) in
  BirdMap.daysBack (BirdMap.state c2) = "14"%string
  /\ BirdMap.lastFetchParams (BirdMap.state c2) = Some (BirdMap.Params.mk "7" "recent")
  /\ BirdMap.pending c2 = None
  /\ BirdMap.shouldFetch (BirdMap.state c2) = true.
Proof.
  assert (Hreach : BirdMap.reachable BirdMap.quietDay BirdMap.mounted) by now exists [].
  destruct (days_chosen_while_loading BirdMap.quietDay BirdMap.mounted BirdMap.initial "14"
              Hreach eq_refl) as [_ [_ [Hd [Hp [_ [Hstale _]]]]]];
    [discriminate | reflexivity |].
  destruct (Hstale [] [console_error "Error fetching species photos:"] eq_refl)
    as [_ [Hparams Hgate]].
  split; [exact Hd |]. split; [exact Hparams |]. split; [exact Hp | exact Hgate].
Defined.

(** ** Photos that the lookup delivers *)

Lemma mapM_Ok_In {A B : Type} (f : A -> result B) (l : list A) (ys : list B) (y : B) :
  mapM f l = Ok ys -> In y ys -> exists x, In x l /\ f x = Ok y.
Proof.
  revert ys. induction l as [| x l IH]; simpl; intros ys Hys Hy.
  - inversion Hys; subst. contradiction.
  - destruct (f x) as [y0 |] eqn:Ey; simpl in Hys; [| discriminate].
    destruct (mapM f l) as [ys' |] eqn:El; simpl in Hys; [| discriminate].
    inversion Hys; subst ys. destruct Hy as [<- | Hy].
    + exists x. split; [now left | assumption].
    + destruct (IH ys' eq_refl Hy) as [x' [Hin Hx']]. exists x'. split; [now right | assumption].
Qed.

(** Where a record of a run comes from. *)
Lemma processedSightings_record (speciesPhotos : value) (valid : list Sighting.t)
  (clusters : list Location.t) (c : Location.t) (b : Bird.t) :
  processedSightings speciesPhotos (groupedByLocation valid) = Ok clusters ->
  In c clusters -> In b (Location.birds c) ->
  exists s rest,
    baseData speciesPhotos (s :: rest) = Ok b
    /\ In s valid /\ locationKey s = clusterKey c.
Proof.
  unfold processedSightings. intros Hrun Hc Hb.
  destruct (mapM_Ok_In _ _ _ _ Hrun Hc) as [[[lat lng] sightings] [Hin Hf]].
  destruct (mapM _ (Object_entries _)) as [birds |] eqn:Eb; simpl in Hf; [| discriminate].
  inversion Hf; subst c. simpl in Hb.
  destruct (mapM_Ok_In _ _ _ _ Eb Hb) as [[name group] [Hg Hbase]]. simpl in Hbase.
  apply (proj1 (Object_entries_In _ _)) in Hg.
  apply groupBy_In in Hin. destruct Hin as [Hs _].
  apply groupBy_In in Hg. destruct Hg as [Hg Hne].
  destruct group as [| s rest]; [congruence |].
  exists s, rest. split; [exact Hbase |].
  assert (Hsg : In s (filter (hasKey string_dec Sighting.comName name) sightings))
    by (rewrite <- Hg; now left).
  apply filter_In in Hsg. destruct Hsg as [Hsg _]. rewrite Hs in Hsg.
  apply filter_In in Hsg. destruct Hsg as [Hv Hk].
  split; [exact Hv |]. now apply hasKey_true in Hk.
Qed.

(** When the photo service answers with a table, the run completes with
    nothing logged, and every record has the photos the table holds under
    the key [sciName_comName] of the first observation the record merges:
    the entry's [thumbnailUrl] as [thumbnailUrl], its [imageUrl] as
    [fullPhotoUrl].  A record whose key the table does not hold has neither
    property, unless the key names a property that every object inherits
    ([__proto__] or a legacy accessor): the lookup then finds the inherited
    object, and the record gets both properties, [undefined]. *)
Theorem photos_joined_by_species_key
  (speciesLookup : list string -> Response value) (data : list Sighting.t)
  (table : list (string * value)) :
  lookupAnswered (speciesLookup (uniqueSpecies (validSightings data))) table ->
  exists clusters,
    processData speciesLookup data = (Ok clusters, [])
    /\ forall c b,
         In c clusters -> In b (Location.birds c) ->
         exists s,
           Bird.base b = Some s
           /\ In s (validSightings data)
           /\ locationKey s = clusterKey c
           /\ (forall entry thumbnail image,
                 assoc (speciesKey s) table = Some (VObj entry) ->
                 assoc "thumbnailUrl" entry = Some thumbnail ->
                 assoc "imageUrl" entry = Some image ->
                 Bird.thumbnailUrl b = Some thumbnail /\ Bird.fullPhotoUrl b = Some image)
           /\ (assoc (speciesKey s) table = None ->
               Bird.thumbnailUrl b = inheritedPhoto (speciesKey s)
               /\ Bird.fullPhotoUrl b = inheritedPhoto (speciesKey s)
               /\ (inheritedKey (speciesKey s) = false ->
                   Bird.thumbnailUrl b = None /\ Bird.fullPhotoUrl b = None)
               /\ (inheritedKey (speciesKey s) = true ->
                   Bird.thumbnailUrl b = Some VUndefined
                   /\ Bird.fullPhotoUrl b = Some VUndefined)).
Proof.
  intros [body [Hr Hs]].
  assert (Hu : ~ unusable (VObj table)) by (intros [H | H]; discriminate).
  destruct (processedSightings_defined (VObj table)
              (groupedByLocation (validSightings data)) Hu) as [clusters Hrun].
  exists clusters. split.
  - unfold processData. rewrite Hr. simpl. rewrite Hs. now rewrite Hrun.
  - intros c b Hc Hb.
    destruct (processedSightings_record _ _ _ c b Hrun Hc Hb) as [s [rest [Hbase [Hv Hk]]]].
    exists s.
    destruct (assoc (speciesKey s) table) as [photoData |] eqn:Ea.
    + unfold baseData in Hbase. cbn [hd_error get] in Hbase. rewrite Ea in Hbase.
      cbn [bind] in Hbase.
      destruct (truthy photoData) eqn:Et.
      * destruct (get photoData "thumbnailUrl") as [t |] eqn:Eth; simpl in Hbase;
          [| discriminate].
        destruct (get photoData "imageUrl") as [i |] eqn:Ei; simpl in Hbase;
          [| discriminate].
        inversion Hbase; subst b. simpl.
        split; [reflexivity |]. split; [exact Hv |]. split; [exact Hk |].
        split; [| discriminate].
        intros entry thumbnail image He Hth Him. inversion He; subst photoData.
        simpl in Eth, Ei. rewrite Hth in Eth. rewrite Him in Ei.
        inversion Eth. inversion Ei. now split.
      * inversion Hbase; subst b. simpl.
        split; [reflexivity |]. split; [exact Hv |]. split; [exact Hk |].
        split; [| discriminate].
        intros entry thumbnail image He. inversion He; subst photoData. discriminate.
    + rewrite baseData_absent in Hbase by exact Ea.
      inversion Hbase; subst b. unfold plainBird, groupKey, inheritedPhoto. simpl.
      split; [reflexivity |]. split; [exact Hv |]. split; [exact Hk |].
      split; [discriminate |]. intros _.
      split; [reflexivity |]. split; [reflexivity |].
      split; intros ->; now split.
Qed.

Lemma photos_joined_by_species_key_witness :
  exists clusters,
    processData robinPhotos [robin_jan1; towhee_jan2] = (Ok clusters, [])
    /\ forall c b,
         In c clusters -> In b (Location.birds c) ->
         exists s,
           Bird.base b = Some s
           /\ In s (validSightings [robin_jan1; towhee_jan2])
           /\ locationKey s = clusterKey c
           /\ (forall entry thumbnail image,
                 assoc (speciesKey s) robinTable
                 = Some (VObj entry) ->
                 assoc "thumbnailUrl" entry = Some thumbnail ->
                 assoc "imageUrl" entry = Some image ->
                 Bird.thumbnailUrl b = Some thumbnail /\ Bird.fullPhotoUrl b = Some image)
           /\ (assoc (speciesKey s) robinTable = None ->
               Bird.thumbnailUrl b = inheritedPhoto (speciesKey s)
               /\ Bird.fullPhotoUrl b = inheritedPhoto (speciesKey s)
               /\ (inheritedKey (speciesKey s) = false ->
                   Bird.thumbnailUrl b = None /\ Bird.fullPhotoUrl b = None)
               /\ (inheritedKey (speciesKey s) = true ->
                   Bird.thumbnailUrl b = Some VUndefined
                   /\ Bird.fullPhotoUrl b = Some VUndefined)).
Proof.
  apply (photos_joined_by_species_key robinPhotos [robin_jan1; towhee_jan2]).
  eexists. split; reflexivity.
Defined.

(** ** The order of the clusters and of their records *)

Section GroupByOrder.

Context {A K : Type}.
Variable K_eq_dec : forall x y : K, {x = y} + {x <> y}.
Variable iteratee : A -> K.

Lemma groupBy_fold_keys (l : list A) :
  forall acc,
    map fst (fold_left (fun acc x => groupBy_add K_eq_dec (iteratee x) x acc) l acc)
    = (map fst acc
       ++ filter (fun k => if in_dec K_eq_dec k (map fst acc) then false else true)
                 (firstOccurrences K_eq_dec (map iteratee l)))%list.
Proof.
  induction l as [| x l IH]; intros acc; simpl.
  - now rewrite app_nil_r.
  - rewrite IH.
    destruct (in_dec K_eq_dec (iteratee x) (map fst acc)) as [Hin | Hnin].
    + rewrite groupBy_add_keys_old by assumption. f_equal.
      rewrite filter_filter. apply filter_ext_in. intros k _.
      destruct (K_eq_dec k (iteratee x)) as [-> | Hne]; simpl; [| reflexivity].
      now destruct (in_dec K_eq_dec (iteratee x) (map fst acc)).
    + rewrite groupBy_add_keys_new by assumption. rewrite <- app_assoc. simpl.
      do 2 f_equal. rewrite filter_filter. apply filter_ext_in. intros k _.
      destruct (K_eq_dec k (iteratee x)) as [-> | Hne]; simpl.
      * destruct (in_dec K_eq_dec (iteratee x) (map fst acc ++ [iteratee x])%list)
          as [_ | H]; [reflexivity |].
        exfalso. apply H, in_or_app. right. now left.
      * destruct (in_dec K_eq_dec k (map fst acc ++ [iteratee x])%list) as [H | H];
          destruct (in_dec K_eq_dec k (map fst acc)) as [H' | H']; try reflexivity.
        -- apply in_app_or in H. destruct H as [H | [H | []]]; congruence.
        -- exfalso. apply H, in_or_app. now left.
Qed.

Lemma groupBy_keys (l : list A) :
  map fst (groupBy K_eq_dec iteratee l) = firstOccurrences K_eq_dec (map iteratee l).
Proof.
  unfold groupBy. rewrite groupBy_fold_keys. simpl.
  induction (firstOccurrences K_eq_dec (map iteratee l)) as [| k ks IH]; simpl; congruence.
Qed.

End GroupByOrder.

Lemma Object_entries_named {A : Type} (o : list (string * A)) :
  (forall k, In k (map fst o) -> arrayIndex k = None) -> Object_entries o = o.
Proof.
  intros H. unfold Object_entries.
  assert (Hi : indexed o = [] /\ named o = o).
  { induction o as [| [k v] rest IH]; simpl; [now split |].
    rewrite (H k) by now left.
    destruct IH as [H1 H2]; [intros k' Hk'; apply H; now right |].
    now rewrite H1, H2. }
  destruct Hi as [-> ->]. reflexivity.
Qed.

(** The clusters come in the order in which their coordinates first occur
    among the valid observations, and the records of a cluster in the order
    in which their common names first occur there.  (A common name that
    reads as an array index, such as [7], would be listed before all
    others: [Object.entries] puts such keys first.) *)
Theorem clusters_in_order_of_first_observation (data : list Sighting.t) :
  map clusterKey (normalize data)
  = firstOccurrences locationKey_eq_dec (map locationKey (validSightings data))
  /\ forall c,
       In c (normalize data) ->
       (forall s, In s (validSightings data) -> arrayIndex (Sighting.comName s) = None) ->
       map Bird.comName (Location.birds c)
       = map Some
           (firstOccurrences string_dec
              (map Sighting.comName
                   (filter (hasKey locationKey_eq_dec locationKey (clusterKey c))
                           (validSightings data)))).
Proof.
  split.
  - rewrite normalize_plain. unfold plainClusters. rewrite map_map.
    rewrite (map_ext _ fst) by now intros [[lat lng] sightings].
    apply groupBy_keys.
  - intros c Hc Hnames. apply normalize_In in Hc. destruct Hc as [g [Hg Hb]].
    destruct (groupBy_In _ _ _ _ _ Hg) as [Hgeq _].
    rewrite Hb, <- Hgeq. unfold plainBirds.
    assert (Hkeys : forall k, In k (map fst (birdsBySpecies g)) -> arrayIndex k = None).
    { intros k Hk. apply in_map_iff in Hk. destruct Hk as [[name grp] [Hname Hin]].
      simpl in Hname. subst name.
      destruct (groupBy_In _ _ _ _ _ Hin) as [Hgrp Hne].
      destruct grp as [| s rest]; [congruence |].
      assert (Hs : In s (filter (hasKey string_dec Sighting.comName k) g))
        by (rewrite <- Hgrp; now left).
      apply filter_In in Hs. destruct Hs as [Hs Hname]. apply hasKey_true in Hname.
      rewrite <- Hname. apply Hnames. rewrite Hgeq in Hs. apply filter_In in Hs. tauto. }
    rewrite (Object_entries_named _ Hkeys), map_map.
    rewrite (map_ext_in _ (fun species : string * list Sighting.t => Some (fst species))).
    + rewrite <- (map_map fst Some). f_equal. apply groupBy_keys.
    + intros [name grp] Hin. simpl. now apply (plainBird_comName _ _ g).
Qed.

(** ** The update button, from click to move *)

